(** * Wikilink network extraction: a shallow embedding of
      [02-extract-wikilink-network/wikilink-network.ipynb]

    The notebook builds a one-hop link graph around a list of seed pages.
    Its Python functions are embedded here as Rocq functions:

    - Python [str] values are [string]s (code points below 256);
    - Python [dict]s are insertion-ordered association lists ([dict]);
    - the directory of per-title link files is a [gmap] from file name
      to file content;
    - the remote MediaWiki service is a function from request parameters
      to an optional answer, and every request issued is logged;
    - exceptions are an explicit [result], threaded through a small
      state-and-error monad. *)

From Stdlib Require Import ZArith String Ascii.
From stdpp Require Import base list strings gmap.

Local Open Scope string_scope.
Local Open Scope Z_scope.
Local Open Scope list_scope.

(** ** Python string operations used by the notebook *)

(** [s.replace(old, new)] for one-character [old] and [new]. *)
Fixpoint str_replace (old new : ascii) (s : string) : string :=
  match s with
  | EmptyString => EmptyString
  | String c s' =>
      String (if Ascii.eqb c old then new else c) (str_replace old new s')
  end.

(** The title normal form of the notebook: [t.replace(' ', '_')]. *)
Definition normalize (t : string) : string := str_replace " " "_" t.

(** [sep.join(l)]. *)
Fixpoint str_join (sep : string) (l : list string) : string :=
  match l with
  | [] => ""
  | [x] => x
  | x :: l' => x +:+ sep +:+ str_join sep l'
  end.

Fixpoint str_lstrip (c : ascii) (s : string) : string :=
  match s with
  | EmptyString => EmptyString
  | String a s' => if Ascii.eqb a c then str_lstrip c s' else s
  end.

Fixpoint str_rstrip (c : ascii) (s : string) : string :=
  match s with
  | EmptyString => EmptyString
  | String a s' =>
      match str_rstrip c s' with
      | EmptyString => if Ascii.eqb a c then EmptyString else String a EmptyString
      | r => String a r
      end
  end.

(** [s.strip(c)] for a one-character [c]. *)
Definition str_strip (c : ascii) (s : string) : string :=
  str_rstrip c (str_lstrip c s).

Definition ord (c : ascii) : N := N_of_ascii c.

Definition LF : ascii := ascii_of_N 10.
Definition CR : ascii := ascii_of_N 13.

(** Line boundaries of [str.splitlines]: LF, VT, FF, CR, FS, GS, RS and
    NEL (the boundaries U+2028 and U+2029 lie outside the alphabet). *)
Definition is_linebreak (c : ascii) : bool :=
  bool_decide (ord c ∈ [10; 11; 12; 13; 28; 29; 30; 133]%N).

(** Whitespace as [\s] of a [str] pattern and [str.isspace] see it. *)
Definition is_space (c : ascii) : bool :=
  bool_decide (ord c ∈ [9; 10; 11; 12; 13; 28; 29; 30; 31; 32; 133; 160]%N).

(** [s.splitlines()]: CR LF counts as one boundary, and a final
    boundary does not open an empty last line. *)
Fixpoint splitlines (s : string) : list string :=
  match s with
  | EmptyString => []
  | String c s' =>
      if Ascii.eqb c CR then
        match s' with
        | String c' s'' =>
            if Ascii.eqb c' LF then "" :: splitlines s'' else "" :: splitlines s'
        | EmptyString => [""]
        end
      else if is_linebreak c then "" :: splitlines s'
      else
        match splitlines s' with
        | [] => [String c EmptyString]
        | l :: ls => String c l :: ls
        end
  end.

(** Reading a file opened in text mode: CR LF and a lone CR arrive as LF. *)
Fixpoint universal_newlines (s : string) : string :=
  match s with
  | EmptyString => EmptyString
  | String c s' =>
      if Ascii.eqb c CR then
        match s' with
        | String c' s'' =>
            if Ascii.eqb c' LF then String LF (universal_newlines s'')
            else String LF (universal_newlines s')
        | EmptyString => String LF EmptyString
        end
      else String c (universal_newlines s')
  end.

(** [for line in infile]: the lines of a text, each with its final LF. *)
Fixpoint file_lines (s : string) : list string :=
  match s with
  | EmptyString => []
  | String c s' =>
      if Ascii.eqb c LF then String c EmptyString :: file_lines s'
      else
        match file_lines s' with
        | [] => [String c EmptyString]
        | l :: ls => String c l :: ls
        end
  end.

(** ** Python dictionaries: association lists in insertion order *)

Definition dict (K V : Type) : Type := list (K * V).

Section dict.
Context {K V : Type} `{EqDecision K}.

Fixpoint dict_get (d : dict K V) (k : K) : option V :=
  match d with
  | [] => None
  | (k', v) :: d' => if decide (k' = k) then Some v else dict_get d' k
  end.

(** [d[k] = v]: an existing key keeps its place, a new one goes last. *)
Fixpoint dict_set (k : K) (v : V) (d : dict K V) : dict K V :=
  match d with
  | [] => [(k, v)]
  | (k', v') :: d' =>
      if decide (k' = k) then (k', v) :: d' else (k', v') :: dict_set k v d'
  end.

Definition dict_keys (d : dict K V) : list K := d.*1.

(** [k in d]. *)
Definition dict_mem (k : K) (d : dict K V) : bool :=
  bool_decide (k ∈ dict_keys d).
End dict.

(** ** [split_param_list] *)

(** [range(start, stop, step)] for a positive [step]. *)
Definition py_range (start stop step : nat) : list nat :=
  (λ i, start + i * step)%nat <$> seq 0 ((stop - start + (step - 1)) / step)%nat.

(** [alist[i:j]] for [0 <= i <= j]. *)
Definition slice {A} (alist : list A) (i j : nat) : list A :=
  take (j - i) (drop i alist).

(** What [split_param_list] hands back: the empty string for an empty
    input, a list of chunks otherwise. *)
Inductive split_result (A : Type) : Type :=
  | EmptyStr
  | Chunks (chunks : list (list A)).
Arguments EmptyStr {A}.
Arguments Chunks {A} chunks.

Definition chunk_len : nat := 50.

Definition split_param_list {A} (alist : list A) : split_result A :=
  if (length alist <? 1)%nat then EmptyStr
  else Chunks ((λ x, slice alist x (x + chunk_len)) <$>
               py_range 0 (length alist) chunk_len).

(** [for title_list in title_lists]: iterating over [''] yields nothing. *)
Definition iterate {A} (r : split_result A) : list (list A) :=
  match r with
  | EmptyStr => []
  | Chunks chunks => chunks
  end.

(** ** Regular expressions: the backtracking matcher behind [re.findall] *)

(** The constructs [linkP] is made of.  Every starred sub-pattern of
    [linkP] is a character class, so the stars range over classes. *)
Inductive re : Type :=
  | Eps
  | Chr (p : ascii → bool)
  | Seq (r1 r2 : re)
  | Opt (r : re)
  | StarGreedy (p : ascii → bool)
  | StarLazy (p : ascii → bool)
  | Group (r : re).

Fixpoint str_take (n : nat) (s : string) : string :=
  match n, s with
  | S n', String c s' => String c (str_take n' s')
  | _, _ => EmptyString
  end.

(** [re_match r s g k] matches [r] at the start of [s]; [g] is the text
    captured so far, and [k] is the rest of the pattern, tried on every
    way of matching [r] in the priority order of a backtracking matcher
    until one succeeds. *)
Fixpoint re_match {A} (r : re) (s : string) (g : option string)
    (k : string → option string → option A) : option A :=
  match r with
  | Eps => k s g
  | Chr p =>
      match s with
      | String c s' => if p c then k s' g else None
      | EmptyString => None
      end
  | Seq r1 r2 => re_match r1 s g (λ s' g', re_match r2 s' g' k)
  | Opt r1 =>
      match re_match r1 s g k with
      | Some x => Some x
      | None => k s g
      end
  | StarGreedy p =>
      (fix star (s : string) : option A :=
         match s with
         | String c s' =>
             if p c then
               match star s' with
               | Some x => Some x
               | None => k s g
               end
             else k s g
         | EmptyString => k s g
         end) s
  | StarLazy p =>
      (fix star (s : string) : option A :=
         match k s g with
         | Some x => Some x
         | None =>
             match s with
             | String c s' => if p c then star s' else None
             | EmptyString => None
             end
         end) s
  | Group r1 =>
      re_match r1 s g
        (λ s' _, k s' (Some (str_take (String.length s - String.length s') s)))
  end.

(** [re.findall] for a pattern with one group: scan left to right, at
    each position not inside the previous match try the pattern, and
    collect the group of every match. *)
Fixpoint re_findall_from (r : re) (skip : nat) (s : string) : list string :=
  match s with
  | EmptyString => []
  | String _ s' =>
      match skip with
      | S n => re_findall_from r n s'
      | O =>
          match re_match r s None (λ rest g, Some (rest, g)) with
          | Some (rest, g) =>
              default "" g ::
              re_findall_from r (String.length s - String.length rest - 1) s'
          | None => re_findall_from r 0 s'
          end
      end
  end.

Definition re_findall (r : re) (s : string) : list string :=
  re_findall_from r 0 s.

Definition re_seq (rs : list re) : re := foldr Seq Eps rs.
Definition lit (c : ascii) : re := Chr (Ascii.eqb c).
Definition none_of (l : list ascii) (c : ascii) : bool := bool_decide (c ∉ l).

(** The class [[^]^[^}^{^#^/^]]. *)
Definition title_char : ascii → bool :=
  none_of ["]"; "^"; "["; "}"; "{"; "#"; "/"]%char.

(** The class [[^]^[]]. *)
Definition inner_char : ascii → bool := none_of ["]"; "^"; "["]%char.

(** [linkP]:
    [\[\[([^]^[^}^{^#^/^]+?)\s*(?:/[^]^[]*?)?\s*(?:\|[^]^[]*?)?(?:\}\})?\s*\]\]] *)
Definition linkP : re :=
  re_seq
    [ lit "["; lit "[";
      Group (Seq (Chr title_char) (StarLazy title_char));
      StarGreedy is_space;
      Opt (re_seq [lit "/"; StarLazy inner_char]);
      StarGreedy is_space;
      Opt (re_seq [lit "|"; StarLazy inner_char]);
      Opt (re_seq [lit "}"; lit "}"]);
      StarGreedy is_space;
      lit "]"; lit "]" ].

(** ** Exceptions, results and the state-and-error monad *)

Inductive exn : Type :=
  | KeyError
  | IndexError
  | RequestError.

Inductive result (A : Type) : Type :=
  | Ok (a : A)
  | Raise (e : exn).
Arguments Ok {A} a.
Arguments Raise {A} e.

Definition M (S A : Type) : Type := S → result A * S.

Definition ret {S A} (a : A) : M S A := λ st, (Ok a, st).
Definition raise {S A} (e : exn) : M S A := λ st, (Raise e, st).
Definition bind {S A B} (c : M S A) (k : A → M S B) : M S B :=
  λ st, match c st with
        | (Ok a, st') => k a st'
        | (Raise e, st') => (Raise e, st')
        end.

Notation "'let*' x := c 'in' k" := (bind c (λ x, k))
  (at level 10, x pattern, c at level 100, k at level 200).

(** [o] when present, else the exception [e]. *)
Definition expect {S A} (e : exn) (o : option A) : M S A :=
  match o with
  | Some a => ret a
  | None => raise e
  end.

(** A [for] loop that updates an accumulator and stops at an exception. *)
Fixpoint foldM {S A B} (f : B → A → M S B) (acc : B) (l : list A) : M S B :=
  match l with
  | [] => ret acc
  | x :: l' => let* acc' := f acc x in foldM f acc' l'
  end.

(** A [for] loop run for its effects. *)
Definition for_each {S A} (l : list A) (body : A → M S unit) : M S unit :=
  foldM (λ _ x, body x) tt l.

(** ** The remote service *)

(** The parameters of one request, as the [params] dictionaries of the
    notebook (the integer [1] is written ["1"]). *)
Definition params : Type := dict string string.

(** One entry of [result['query']['pages']]; a key the answer may lack
    is an [option]. *)
Record page : Type := Page {
  page_ns : option Z;
  page_title : option string;
  page_revisions : option (list (option string))
}.

(** [result['query']].  The keys of [pages] are the decimal renderings
    of page ids; they are kept as integers, so that [page != '-1'] reads
    [pid ≠ -1] and [int(key)] is the key itself. *)
Record query : Type := Query {
  query_redirects : option (list (string * string));
  query_pages : option (dict Z page)
}.

(** A site answers a request with [result['query']], or fails; the
    answer may depend on the requests it has received before. *)
Definition site_t : Type := list params → params → option query.

Section api.
Variable site : site_t.

(** [api.APIRequest(site, params).query()], logged. *)
Definition request_query (p : params) : M (list params) query :=
  λ log, match site log p with
         | Some q => (Ok q, (log ++ [p])%list)
         | None => (Raise RequestError, (log ++ [p])%list)
         end.

Definition titles_param (title_list : list string) : string :=
  str_strip "|" (str_join "|" title_list).

(** The body of [for page in result['query']['pages']] in [parse_text]. *)
Definition parse_page (pages : dict Z page) (links : dict string Z) (page : Z)
    : M (list params) (dict string Z) :=
  if bool_decide (page ≠ -1) then
    let* pg := expect KeyError (dict_get pages page) in
    match page_ns pg with
    | Some ns =>
        if bool_decide (ns = 0) then
          let* link := expect KeyError (page_title pg) in
          ret (dict_set link 1 links)
        else ret links
    | None => ret links
    end
  else ret links.

Definition parse_params (title_list : list string) : params :=
  [("action", "query");
   ("titles", titles_param title_list);
   ("format", "json");
   ("redirect", "1")].

(** The body of [for title_list in title_lists] in [parse_text]. *)
Definition parse_batch (links : dict string Z) (title_list : list string)
    : M (list params) (dict string Z) :=
  let* result := request_query (parse_params title_list) in
  match query_pages result with
  | Some ((_ :: _) as pages) => foldM (parse_page pages) links (dict_keys pages)
  | _ => ret links
  end.

Definition parse_text (content : string) : M (list params) (dict string Z) :=
  let rough_links := re_findall linkP content in
  let title_lists := iterate (split_param_list rough_links) in
  foldM parse_batch [] title_lists.

Definition content_params (title : string) : params :=
  [("action", "query");
   ("prop", "revisions");
   ("titles", title);
   ("rvprop", "content");
   ("redirects", "1")].

Definition get_outlinks_from_api (title : string)
    : M (list params) (Z * list string) :=
  let p_id := -1 in
  let outlinks := [] in
  if bool_decide (title = "" ∨ title = " ") then ret (p_id, outlinks)
  else
    let* result := request_query (content_params title) in
    let* pages := expect KeyError (query_pages result) in
    let* first := expect IndexError (head (dict_keys pages)) in
    if bool_decide (first < 1) then ret (p_id, outlinks)
    else
      let p_id := first in
      let* pg := expect KeyError (dict_get pages p_id) in
      let* revisions := expect KeyError (page_revisions pg) in
      let* rev := expect IndexError (head revisions) in
      let* content := expect KeyError rev in
      let* links := parse_text content in
      ret (p_id, normalize <$> dict_keys links).

(** The state of the loops of [check_redirects]. *)
Record resolved : Type := Resolved {
  res_redirects : dict string string;
  res_links : dict string Z;
  res_duplicates : Z
}.

(** The body of [for page in result['query']['pages']]. *)
Definition check_page (pages : dict Z page) (acc : resolved) (page : Z)
    : M (list params) resolved :=
  if bool_decide (page ≠ -1) then
    let* pg := expect KeyError (dict_get pages page) in
    match page_ns pg with
    | Some ns =>
        if bool_decide (ns = 0) then
          let* title := expect KeyError (page_title pg) in
          let link := normalize title in
          let duplicates :=
            if dict_mem link (res_links acc) then res_duplicates acc + 1
            else res_duplicates acc in
          ret (Resolved (res_redirects acc)
                        (dict_set link page (res_links acc)) duplicates)
        else ret acc
    | None => ret acc
    end
  else ret acc.

Definition redirects_params (title_list : list string) : params :=
  [("action", "query");
   ("titles", titles_param title_list);
   ("redirects", "1")].

(** The body of [for title_list in title_lists]. *)
Definition check_batch (acc : resolved) (title_list : list string)
    : M (list params) resolved :=
  let* result := request_query (redirects_params title_list) in
  let redirects :=
    match query_redirects result with
    | Some redirs =>
        fold_left (λ r redir, dict_set redir.1 redir.2 r) redirs
                  (res_redirects acc)
    | None => res_redirects acc
    end in
  let* pages := expect KeyError (query_pages result) in
  foldM (check_page pages)
        (Resolved redirects (res_links acc) (res_duplicates acc))
        (dict_keys pages).

Definition check_redirects (titles : list string)
    : M (list params) (dict string string * dict string Z) :=
  let title_lists := iterate (split_param_list titles) in
  let* acc := foldM check_batch (Resolved [] [] 0) title_lists in
  ret (res_redirects acc, res_links acc).
End api.

(** ** The crawl state *)

(** A record of the degree table [first_step]. *)
Record degree : Type := Degree {
  seed : bool;
  links_from_seed : Z;
  links_to_seed : Z;
  in_degree : Z;
  out_degree : Z;
  out_WP : Z
}.

(** What a run reads and writes: the link files of [link_folder] by file
    name, the requests sent so far, the lines written to [net_file] (one
    [source TAB target] line per pair) and the degree table. *)
Record env : Type := Env {
  files : gmap string string;
  requests : list params;
  net_file : list (string * string);
  first_step : dict string degree
}.

Definition NL : string := String LF EmptyString.

(** Run a computation of the service layer inside the crawl state. *)
Definition api {A} (c : M (list params) A) : M env A :=
  λ st, let (r, log) := c (requests st) in
        (r, Env (files st) log (net_file st) (first_step st)).

(** [open('r')], [f.read().splitlines()], with [IOError] caught.  File
    names are taken to be names that [open] accepts: a name with a NUL
    character, for which [open] raises [ValueError], is not modelled. *)
Definition read_lines (name : string) : M env (list string) :=
  λ st, match files st !! name with
        | Some content => (Ok (splitlines (universal_newlines content)), st)
        | None => (Ok [], st)
        end.

(** [open('a+')]: the file is created empty when it does not exist.
    The file system is taken to accept the name and the write. *)
Definition open_append (name : string) : M env unit :=
  λ st, (Ok tt, Env (<[name := default "" (files st !! name)]> (files st))
                    (requests st) (net_file st) (first_step st)).

(** [open('w')]: the file is created or emptied, under the same
    assumption. *)
Definition open_write (name : string) : M env unit :=
  λ st, (Ok tt, Env (<[name := ""]> (files st))
                    (requests st) (net_file st) (first_step st)).

(** [f.write(text)] on an open link file. *)
Definition file_write (name text : string) : M env unit :=
  λ st, (Ok tt, Env (<[name := default "" (files st !! name) +:+ text]> (files st))
                    (requests st) (net_file st) (first_step st)).

(** [net_file.write(source + '\t' + target + '\n')]. *)
Definition net_file_write (source target : string) : M env unit :=
  λ st, (Ok tt, Env (files st) (requests st)
                    (net_file st ++ [(source, target)])%list (first_step st)).

Definition set_first_step (fs : dict string degree) : M env unit :=
  λ st, (Ok tt, Env (files st) (requests st) (net_file st) fs).

Definition get_first_step : M env (dict string degree) :=
  λ st, (Ok (first_step st), st).

(** [first_step[k][field] ...] where a missing [k] is a [KeyError]. *)
Definition update_record (k : string) (f : degree → degree) : M env unit :=
  let* fs := get_first_step in
  let* r := expect KeyError (dict_get fs k) in
  set_first_step (dict_set k (f r) fs).

Definition articles_file (title : string) : string :=
  str_replace "/" "." title +:+ "_articles.txt".

Definition incr_links_from_seed (r : degree) : degree :=
  Degree (seed r) (links_from_seed r + 1) (links_to_seed r)
         (in_degree r) (out_degree r) (out_WP r).
Definition incr_links_to_seed (r : degree) : degree :=
  Degree (seed r) (links_from_seed r) (links_to_seed r + 1)
         (in_degree r) (out_degree r) (out_WP r).
Definition incr_in_degree (r : degree) : degree :=
  Degree (seed r) (links_from_seed r) (links_to_seed r)
         (in_degree r + 1) (out_degree r) (out_WP r).
Definition incr_out_degree (r : degree) : degree :=
  Degree (seed r) (links_from_seed r) (links_to_seed r)
         (in_degree r) (out_degree r + 1) (out_WP r).
Definition set_seed (r : degree) : degree :=
  Degree true (links_from_seed r) (links_to_seed r)
         (in_degree r) (out_degree r) (out_WP r).
Definition set_out_WP (n : Z) (r : degree) : degree :=
  Degree (seed r) (links_from_seed r) (links_to_seed r)
         (in_degree r) (out_degree r) n.

Definition len {A} (l : list A) : Z := Z.of_nat (length l).

(** [load_seed]; the argument is the text of the seed file. *)
Definition load_seed (file_text : string) : dict string Z :=
  fold_left (λ dic line,
    let el := str_strip LF line in
    match el with
    | String c _ =>
        if negb (Ascii.eqb c "#") then dict_set (normalize el) 1 dic else dic
    | EmptyString => dic
    end) (file_lines (universal_newlines file_text)) [].

Section crawl.
Variable site : site_t.

(** The order in which Python iterates over the set built from the
    elements of a list. *)
Variable set_order : list string → list string.

Definition get_outlinks (title : string) : M env (bool * list string) :=
  let outlinks_filename := articles_file title in
  let* outlinks_checked := read_lines outlinks_filename in
  match outlinks_checked with
  | _ :: _ => ret (false, outlinks_checked)
  | [] =>
      let* (p, outlinks) := api (get_outlinks_from_api site title) in
      let* (redirects, links) := api (check_redirects site outlinks) in
      ret (true, dict_keys links)
  end.

(** The first [try ... except] of the level-0 loop, on the source. *)
Definition level0_source (seeds_list : dict string Z) (seed target : string)
    (outlinks_checked : list string) (fs : dict string degree)
    : dict string degree :=
  match dict_get fs seed with
  | Some r =>
      let r := incr_out_degree r in
      dict_set seed
        (if dict_mem target seeds_list then incr_links_to_seed r else r) fs
  | None =>
      if dict_mem target seeds_list then
        dict_set seed (Degree true 0 1 0 1 (len outlinks_checked)) fs
      else
        dict_set seed (Degree true 0 0 0 1 (len outlinks_checked)) fs
  end.

(** The second [try ... except] of the level-0 loop, on the target. *)
Definition level0_sink (seeds_list : dict string Z) (target : string)
    (fs : dict string degree) : dict string degree :=
  match dict_get fs target with
  | Some r =>
      let r := incr_in_degree (incr_links_from_seed r) in
      dict_set target (if dict_mem target seeds_list then set_seed r else r) fs
  | None =>
      if dict_mem target seeds_list then
        dict_set target (Degree true 1 0 1 0 0) fs
      else
        dict_set target (Degree false 1 0 1 0 0) fs
  end.

(** The body of [for target in outlinks_checked] of the first pass. *)
Definition level0_target (seeds_list : dict string Z) (seed : string)
    (is_new_page : bool) (outlinks_checked : list string) (target : string)
    : M env unit :=
  if bool_decide (seed ≠ target) then
    let* _ := net_file_write seed target in
    let* _ := if is_new_page
              then file_write (articles_file seed) (target +:+ NL)
              else ret tt in
    let* fs := get_first_step in
    let* _ := set_first_step
                (level0_source seeds_list seed target outlinks_checked fs) in
    let* fs := get_first_step in
    set_first_step (level0_sink seeds_list target fs)
  else ret tt.

(** The body of [for seed in set(seeds_list.keys())]. *)
Definition level0_seed (seeds_list : dict string Z)
    (links_to_seedlinks : list (list string)) (seed : string)
    : M env (list (list string)) :=
  let* (is_new_page, outlinks_checked) := get_outlinks seed in
  let links_to_seedlinks := (links_to_seedlinks ++ [outlinks_checked])%list in
  let* _ :=
    if is_new_page then
      let* _ := open_append (articles_file seed) in
      let* fs := get_first_step in
      match dict_get fs seed with
      | Some r => set_first_step
                    (dict_set seed (set_out_WP (len outlinks_checked) r) fs)
      | None => ret tt
      end
    else ret tt in
  let* _ := for_each outlinks_checked
              (level0_target seeds_list seed is_new_page outlinks_checked) in
  ret links_to_seedlinks.

(** [list(set(chain(links_to_seedlinks)) - set(seeds_list.keys()))]. *)
Definition frontier (seeds_list : dict string Z)
    (links_to_seedlinks : list (list string)) : list string :=
  set_order (filter (λ t, t ∉ dict_keys seeds_list) (concat links_to_seedlinks)).

(** The body of [for target in outlinks_checked] of the second pass. *)
Definition level1_target (seeds_list : dict string Z)
    (links_to_seedlinks : list string) (title : string)
    (is_new_page : bool) (target : string) : M env unit :=
  let* _ := if is_new_page
            then file_write (articles_file title) (target +:+ NL)
            else ret tt in
  if dict_mem target seeds_list && bool_decide (target ≠ title) then
    let* _ := net_file_write title target in
    let* _ := update_record title incr_links_to_seed in
    let* _ := update_record title incr_out_degree in
    update_record target incr_in_degree
  else if bool_decide (target ∈ links_to_seedlinks)
          && bool_decide (target ≠ title) then
    let* _ := net_file_write title target in
    let* _ := update_record title incr_out_degree in
    update_record target incr_in_degree
  else ret tt.

(** The body of [for title in links_to_seedlinks]. *)
Definition level1_title (seeds_list : dict string Z)
    (links_to_seedlinks : list string) (title : string) : M env unit :=
  let* (is_new_page, outlinks_checked) := get_outlinks title in
  let* _ :=
    if is_new_page then
      let* _ := open_write (articles_file title) in
      update_record title (set_out_WP (len outlinks_checked))
    else ret tt in
  for_each outlinks_checked
    (level1_target seeds_list links_to_seedlinks title is_new_page).

(** The first pass: the loop over the seeds. *)
Definition level0 (seeds_list : dict string Z) : M env (list (list string)) :=
  let* _ := set_first_step [] in
  foldM (level0_seed seeds_list) [] (set_order (dict_keys seeds_list)).

(** The second pass: the loop over the frontier. *)
Definition level1 (seeds_list : dict string Z)
    (links_to_seedlinks : list string) : M env unit :=
  for_each links_to_seedlinks (level1_title seeds_list links_to_seedlinks).

(** [extract_network]; the result is the exported degree table, one
    row per key of [first_step]. *)
Definition extract_network (seed_file : string)
    : M env (dict string degree) :=
  let seeds_list := load_seed seed_file in
  let* links_to_seedlinks := level0 seeds_list in
  let links_to_seedlinks := frontier seeds_list links_to_seedlinks in
  let* _ := level1 seeds_list links_to_seedlinks in
  get_first_step.
End crawl.

(** The state in which the notebook calls [extract_network]: [net_file]
    has just been opened for writing, so it is empty. *)
Definition notebook_env (fs : gmap string string) : env := Env fs [] [] [].

(** ** A small wiki to run the crawl on *)

(** [s.split(sep)] for a one-character [sep]. *)
Fixpoint str_split (sep : ascii) (s : string) : list string :=
  match s with
  | EmptyString => [""]
  | String c s' =>
      if Ascii.eqb c sep then "" :: str_split sep s'
      else
        match str_split sep s' with
        | [] => [String c EmptyString]
        | l :: ls => String c l :: ls
        end
  end.

(** A wiki: for each title its page id, namespace and wikitext. *)
Definition wiki : Type := dict string (Z * Z * string).

(** The [pages] of a title query: every known title under its page id,
    every unknown one under the next negative id. *)
Definition wiki_pages (w : wiki) (titles : list string) : dict Z page :=
  (fold_left (λ acc t,
     match dict_get w t with
     | Some (pid, ns, _) =>
         (dict_set pid (Page (Some ns) (Some t) None) acc.1, acc.2)
     | None =>
         (dict_set acc.2 (Page (Some 0) (Some t) None) acc.1, acc.2 - 1)
     end) titles ([], -1)).1.

(** The service in front of a wiki: a request with [prop] asks for the
    wikitext of one title, any other request for the pages of a batch. *)
Definition wiki_site (w : wiki) : site_t := λ _ p,
  match dict_get p "titles" with
  | None => None
  | Some titles =>
      if dict_mem "prop" p then
        match dict_get w titles with
        | Some (pid, ns, content) =>
            Some (Query None
                    (Some [(pid, Page (Some ns) (Some titles) (Some [Some content]))]))
        | None =>
            Some (Query None (Some [(-1, Page (Some 0) (Some titles) None)]))
        end
      else Some (Query None (Some (wiki_pages w (str_split "|" titles))))
  end.

(** Seed A; A links to B and C, B to A and D, C to B. *)
Definition wiki_abcd : wiki :=
  [("A", (1, 0, "[[B]] [[C]]"));
   ("B", (2, 0, "[[A]] [[D]]"));
   ("C", (3, 0, "[[B]]"));
   ("D", (4, 0, ""))].

(** Seeds A and S; A links to B, B links to S, S links to nothing. *)
Definition wiki_lonely_seed : wiki :=
  [("A", (1, 0, "[[B]]"));
   ("B", (2, 0, "[[S]]"));
   ("S", (3, 0, "no links here"))].

(** The seed file with the two seeds A and S. *)
Definition seeds_A_S : string := "A" +:+ NL +:+ "S" +:+ NL.

(** Seed A, whose text links to A itself and to B. *)
Definition wiki_self_link : wiki :=
  [("A", (1, 0, "[[A]] [[B]]"));
   ("B", (2, 0, ""))].

(** A page whose text names three pages that do not exist. *)
Definition wiki_red_links : wiki :=
  [("A", (1, 0, "[[N1]] [[N2]] [[N3]]"))].

(** A page that names A twice and a talk page once. *)
Definition wiki_talk : wiki :=
  [("A", (1, 0, ""));
   ("Talk:B", (2, 1, ""))].

(** The crawls of these wikis, sets being iterated in the order of
    first insertion. *)
Definition run_abcd : result (dict string degree) * env :=
  extract_network (wiki_site wiki_abcd) remove_dups "A" (notebook_env ∅).
Definition run_self_link : result (dict string degree) * env :=
  extract_network (wiki_site wiki_self_link) remove_dups "A" (notebook_env ∅).

(** A second crawl of the same wiki, started by a fresh process on the
    link files the first one left. *)
Definition rerun_self_link : result (dict string degree) * env :=
  extract_network (wiki_site wiki_self_link) remove_dups "A"
    (notebook_env (files run_self_link.2)).

(** The text a crawl writes to the link file of a title with the
    outlinks [l]: one line per outlink. *)
Definition link_lines (l : list string) : string :=
  foldr (λ target text, target +:+ NL +:+ text) "" l.

(** No character of [s] is a line boundary. *)
Fixpoint one_line (s : string) : bool :=
  match s with
  | EmptyString => true
  | String c s' => negb (is_linebreak c) && one_line s'
  end.

(** ** Notions the properties are stated with *)

(** The service answers request [ps], at some point of its history,
    with a [pages] dictionary that holds [pg] under the page id [pid]. *)
Definition served (site : site_t) (ps : params) (pid : Z) (pg : page) : Prop :=
  ∃ log q pages, site log ps = Some q ∧ query_pages q = Some pages
                 ∧ dict_get pages pid = Some pg.

(** The entry [link ↦ pid] of a resolved map is backed by the answer to
    the batch [title_list]: the answer holds a page under [pid], which
    is not the missing-page id, in namespace 0, whose normalized title
    is [link]. *)
Definition kept_by (site : site_t) (title_list : list string)
    (link : string) (pid : Z) : Prop :=
  pid ≠ -1 ∧ ∃ pg title,
    served site (redirects_params title_list) pid pg
    ∧ page_ns pg = Some 0 ∧ page_title pg = Some title ∧ link = normalize title.

(** The answers of the service to the requests [reqs], sent one after
    the other to a service that has received [log] so far. *)
Fixpoint answers (site : site_t) (log : list params) (reqs : list params)
    : list (option query) :=
  match reqs with
  | [] => []
  | ps :: reqs' => site log ps :: answers site (log ++ [ps]) reqs'
  end.

(** The service returned the page [pg] under the page id [pid] in one
    of its answers to the requests [reqs], sent one after the other
    from [log]. *)
Definition returned (site : site_t) (log : list params) (reqs : list params)
    (pid : Z) (pg : page) : Prop :=
  ∃ q pages, Some q ∈ answers site log reqs ∧ query_pages q = Some pages
             ∧ dict_get pages pid = Some pg.

(** The pages of an answer: none when the request failed or the answer
    has no [pages]. *)
Definition answer_pages (answer : option query) : dict Z page :=
  match answer with
  | Some q => default [] (query_pages q)
  | None => []
  end.

(** The title of the page under [pid], when the page has an id other
    than -1 and is in namespace 0. *)
Definition page_article (pages : dict Z page) (pid : Z) : option string :=
  match dict_get pages pid with
  | Some pg =>
      if bool_decide (pid ≠ -1 ∧ page_ns pg = Some 0) then page_title pg
      else None
  | None => None
  end.

(** The titles of the pages of an answer that have an id other than -1
    and are in namespace 0, in the order of the answer. *)
Definition article_titles (pages : dict Z page) : list string :=
  omap (page_article pages) (dict_keys pages).

(** [l] added to [seen], element after element, each one that is not
    there yet at the end. *)
Definition add_new (seen l : list string) : list string :=
  fold_left (λ seen x, if decide (x ∈ seen) then seen else seen ++ [x]) l seen.

(** [l] without repetitions, every element at the place of its first
    occurrence. *)
Definition first_occurrences (l : list string) : list string := add_new [] l.

(** A title that is empty or made of whitespace only. *)
Fixpoint whitespace_only (title : string) : bool :=
  match title with
  | EmptyString => true
  | String c title' => is_space c && whitespace_only title'
  end.

(** How many lines of the edge stream have [t] as source, as target. *)
Definition count_source (t : string) (edges : list (string * string)) : Z :=
  len (filter (λ e, e.1 = t) edges).
Definition count_target (t : string) (edges : list (string * string)) : Z :=
  len (filter (λ e, e.2 = t) edges).

(** The in-degree and out-degree the table gives a title: those of its
    record, and 0 when it has none. *)
Definition deg_in (fs : dict string degree) (t : string) : Z :=
  from_option in_degree 0 (dict_get fs t).
Definition deg_out (fs : dict string degree) (t : string) : Z :=
  from_option out_degree 0 (dict_get fs t).

(** The degree table agrees with the edge stream, and has one record
    per title. *)
Definition agree (edges : list (string * string)) (fs : dict string degree) : Prop :=
  (∀ t, deg_in fs t = count_target t edges ∧ deg_out fs t = count_source t edges)
  ∧ NoDup (dict_keys fs).

(** The table [fs'] is [fs] after the edge from [s] to [t] has been
    counted: one more out for [s], one more in for [t]. *)
Definition records_edge (s t : string) (fs fs' : dict string degree) : Prop :=
  (∀ x, deg_in fs' x = deg_in fs x + (if decide (t = x) then 1 else 0)
        ∧ deg_out fs' x = deg_out fs x + (if decide (s = x) then 1 else 0))
  ∧ (NoDup (dict_keys fs) → NoDup (dict_keys fs')).

(** The tables [fs] and [fs'] have the same titles with the same degrees. *)
Definition same_degrees (fs fs' : dict string degree) : Prop :=
  (∀ x, deg_in fs' x = deg_in fs x ∧ deg_out fs' x = deg_out fs x)
  ∧ dict_keys fs' = dict_keys fs.

(** [c] keeps [P]: from a state with [P] it ends, with a result or with
    an exception, in a state with [P]. *)
Definition keeps {S A} (P : S → Prop) (c : M S A) : Prop :=
  ∀ st r st', P st → c st = (r, st') → P st'.

(** [c] keeps [P] when it completes. *)
Definition keeps_ok {S A} (P : S → Prop) (c : M S A) : Prop :=
  ∀ st a st', P st → c st = (Ok a, st') → P st'.

(** ** Further notions *)

(** No character of [s] is a space. *)
Fixpoint no_space (s : string) : bool :=
  match s with
  | EmptyString => true
  | String c s' => negb (Ascii.eqb c " ") && no_space s'
  end.

(** The text [s] holds two opening brackets in a row somewhere. *)
Fixpoint has_link_open (s : string) : bool :=
  match s with
  | EmptyString => false
  | String c s' =>
      (Ascii.eqb c "["
       && match s' with
          | String c' _ => Ascii.eqb c' "["
          | EmptyString => false
          end)
      || has_link_open s'
  end.

(** Every character of [s] passes the test [p]. *)
Fixpoint str_forall (p : ascii → bool) (s : string) : bool :=
  match s with
  | EmptyString => true
  | String c s' => p c && str_forall p s'
  end.

(** No character of [s] is the NUL character.  A file name that holds
    one makes [open] raise [ValueError], which is no [IOError]. *)
Definition no_nul (s : string) : bool :=
  str_forall (λ c, negb (Ascii.eqb c "000")) s.

(** The pattern [r] has no capture group. *)
Fixpoint group_free (r : re) : bool :=
  match r with
  | Group _ => false
  | Seq r1 r2 => group_free r1 && group_free r2
  | Opt r1 => group_free r1
  | _ => true
  end.

(** The lines a fresh load finds in the link file of [title]: none when
    the file is missing. *)
Definition cached (fs : gmap string string) (title : string) : list string :=
  match fs !! articles_file title with
  | Some content => splitlines (universal_newlines content)
  | None => []
  end.

(** [f] applied to the record of [k], when there is one. *)
Definition dict_update (k : string) (f : degree → degree)
    (fs : dict string degree) : dict string degree :=
  match dict_get fs k with
  | Some r => dict_set k (f r) fs
  | None => fs
  end.

(** The value the table gives a title in the column [proj]: that of its
    record, and 0 when it has none. *)
Definition rec_field (proj : degree → Z) (fs : dict string degree) (t : string) : Z :=
  from_option proj 0 (dict_get fs t).

(** The lines the first pass writes for a seed with the outlinks
    [outlinks]: one per outlink other than the seed, in their order. *)
Definition level0_edges (seed : string) (outlinks : list string)
    : list (string * string) :=
  (λ target, (seed, target)) <$> filter (λ target, seed ≠ target) outlinks.

(** The degree table after the first pass has gone through the
    outlinks [targets] of a seed. *)
Definition level0_table (seeds_list : dict string Z) (seed : string)
    (outlinks targets : list string) (fs : dict string degree)
    : dict string degree :=
  fold_left (λ fs target,
    if decide (seed = target) then fs
    else level0_sink seeds_list target
           (level0_source seeds_list seed target outlinks fs)) targets fs.

(** The second pass writes the line from [title] to [target]. *)
Definition level1_writes (seeds_list : dict string Z)
    (links_to_seedlinks : list string) (title target : string) : Prop :=
  target ≠ title
  ∧ (target ∈ dict_keys seeds_list ∨ target ∈ links_to_seedlinks).

(** How many lines of the edge stream pass the test [p]. *)
Definition count_edges (p : string * string → Prop) `{∀ e, Decision (p e)}
    (edges : list (string * string)) : Z :=
  len (filter p edges).

(** The degree table after the second pass has gone through the
    outlink [target] of [title]. *)
Definition level1_step (seeds_list : dict string Z)
    (links_to_seedlinks : list string) (title target : string)
    (fs : dict string degree) : dict string degree :=
  if dict_mem target seeds_list && bool_decide (target ≠ title) then
    dict_update target incr_in_degree
      (dict_update title incr_out_degree
         (dict_update title incr_links_to_seed fs))
  else if bool_decide (target ∈ links_to_seedlinks)
          && bool_decide (target ≠ title) then
    dict_update target incr_in_degree (dict_update title incr_out_degree fs)
  else fs.

(** ** Fixtures for runs on link files *)

(** A service that is out of reach: every request fails. *)
Definition site_down : site_t := λ _ _, None.

(** Link files that hold everything a crawl from the seed A needs: A
    links to B, and B links to A. *)
Definition files_A_B : gmap string string :=
  <[articles_file "A" := link_lines ["B"]]>
    (<[articles_file "B" := link_lines ["A"]]> ∅).

(** The link file that a crawl leaves for the title AC/DC. *)
Definition files_slash : gmap string string :=
  <[articles_file "AC/DC" := link_lines ["Rock"]]> ∅.

(** The state of the crawl of [wiki_abcd] after the first pass. *)
Definition level0_abcd : result (list (list string)) * env :=
  level0 (wiki_site wiki_abcd) remove_dups (load_seed "A") (notebook_env ∅).

(** * Properties *)

(** ** Title normalization *)

Lemma str_replace_fresh (old new : ascii) (s : string) :
  old ≠ new → str_replace old new (str_replace old new s) = str_replace old new s.
Proof.
  intros Hne. induction s as [|c s IH]; simpl; [done|].
  rewrite IH. f_equal.
  destruct (Ascii.eqb_spec c old) as [->|Hc].
  - destruct (Ascii.eqb_spec new old) as [Heq|_]; [by destruct Hne|done].
  - by destruct (Ascii.eqb_spec c old).
Qed.

Lemma normalize_spaces (t : string) (n : nat) :
  get n (normalize t) =
  (λ c, if Ascii.eqb c " " then "_"%char else c) <$> get n t.
Proof.
  revert n. induction t as [|c t IH]; intros [|n]; simpl; done.
Qed.

(** C9: normalizing replaces every space by the joining character and
    leaves the other characters alone, and normalizing a title twice is
    the same as normalizing it once. *)
Theorem normalize_idempotent (t : string) :
  normalize (normalize t) = normalize t
  ∧ ∀ n, get n (normalize t) =
         (λ c, if Ascii.eqb c " " then "_"%char else c) <$> get n t.
Proof.
  split; [|apply normalize_spaces].
  unfold normalize. by apply str_replace_fresh.
Qed.

(** ** Batching *)

Section batching.
Context {A : Type}.
Implicit Types alist : list A.

Lemma py_range_0 (stop step : nat) :
  py_range 0 stop step = (λ i, i * step)%nat <$> seq 0 ((stop + (step - 1)) / step).
Proof. unfold py_range. by rewrite Nat.sub_0_r. Qed.

Lemma concat_slices alist (step n : nat) :
  concat ((λ x, slice alist x (x + step)) <$> ((λ i, i * step)%nat <$> seq 0 n))
  = take (n * step) alist.
Proof.
  induction n as [|n IH]; [done|].
  rewrite seq_S, !fmap_app, concat_app, IH. simpl.
  rewrite app_nil_r. unfold slice.
  replace (n * step + step - n * step)%nat with step by lia.
  rewrite take_take_drop. f_equal. lia.
Qed.

Lemma chunks_cover (n : nat) : (n ≤ (n + (chunk_len - 1)) / chunk_len * chunk_len)%nat.
Proof.
  unfold chunk_len.
  pose proof (Nat.div_mod_eq (n + (50 - 1)) 50).
  pose proof (Nat.mod_upper_bound (n + (50 - 1)) 50). lia.
Qed.

Lemma slice_length alist (i j : nat) : (length (slice alist i j) ≤ j - i)%nat.
Proof. unfold slice. rewrite length_take. lia. Qed.

(** C5: the batches of [split_param_list] have at most 50 titles each,
    put end to end they are the input, and the empty input gives no
    batch to iterate over. *)
Theorem split_param_list_batches alist :
  Forall (λ batch, (length batch ≤ 50)%nat) (iterate (split_param_list alist))
  ∧ concat (iterate (split_param_list alist)) = alist
  ∧ iterate (split_param_list (@nil A)) = [].
Proof.
  split; [|split; [|done]].
  - unfold split_param_list. destruct (length alist <? 1)%nat; simpl; [constructor|].
    apply Forall_fmap, Forall_forall. intros x _. simpl.
    pose proof (slice_length alist x (x + chunk_len)). unfold chunk_len in *. lia.
  - unfold split_param_list.
    destruct (length alist <? 1)%nat eqn:Hlen; simpl.
    + apply Nat.ltb_lt in Hlen. destruct alist; [done|simpl in Hlen; lia].
    + rewrite py_range_0, concat_slices. apply take_ge, chunks_cover.
Qed.
End batching.

(** ** Dictionaries *)

Section dict_facts.
Context {K V : Type} `{EqDecision K}.
Implicit Types (d : dict K V) (k : K) (v : V).

Lemma dict_get_set d k v k' :
  dict_get (dict_set k v d) k' = if decide (k = k') then Some v else dict_get d k'.
Proof.
  induction d as [|[k0 v0] d IH]; simpl.
  - repeat case_decide; congruence.
  - repeat (case_decide; simpl); try congruence.
Qed.

Lemma dict_get_Some_elem d k v : dict_get d k = Some v → (k, v) ∈ d.
Proof.
  induction d as [|[k0 v0] d IH]; simpl; [done|].
  case_decide; intros ?; simplify_eq; [left|right; auto].
Qed.

Lemma dict_get_None d k : dict_get d k = None ↔ k ∉ dict_keys d.
Proof.
  unfold dict_keys. induction d as [|[k0 v0] d IH]; simpl.
  - split; [intros _; apply not_elem_of_nil|done].
  - rewrite not_elem_of_cons. case_decide.
    + split; [done|]. intros [? _]. congruence.
    + rewrite IH. split; [by split|by intros [_ ?]].
Qed.

Lemma dict_get_is_Some d k : is_Some (dict_get d k) ↔ k ∈ dict_keys d.
Proof.
  rewrite <-not_eq_None_Some, dict_get_None.
  split; [apply dec_stable|auto].
Qed.

Lemma dict_set_elem d k v k' v' :
  (k', v') ∈ dict_set k v d → (k', v') = (k, v) ∨ (k', v') ∈ d.
Proof.
  induction d as [|[k0 v0] d IH]; simpl.
  - intros ?%list_elem_of_singleton. auto.
  - case_decide; subst; rewrite !elem_of_cons.
    + intros [?|?]; simplify_eq; auto.
    + intros [?|[?|?]%IH]; auto.
Qed.

Lemma dict_set_keys d k v :
  dict_keys (dict_set k v d) =
  if decide (k ∈ dict_keys d) then dict_keys d else dict_keys d ++ [k].
Proof.
  unfold dict_keys. induction d as [|[k0 v0] d IH].
  - by rewrite decide_False by apply not_elem_of_nil.
  - rewrite fmap_cons. simpl dict_set.
    destruct (decide (k0 = k)) as [->|Hne]; rewrite fmap_cons; simpl fst.
    + destruct (decide (k ∈ k :: d.*1)) as [_|Hn]; [done|]. destruct Hn. left.
    + rewrite IH. destruct (decide (k ∈ d.*1)) as [Hin|Hn].
      * destruct (decide (k ∈ k0 :: d.*1)) as [_|Hn']; [done|].
        destruct Hn'. by right.
      * destruct (decide (k ∈ k0 :: d.*1)) as [Hin'|_]; [|done].
        apply elem_of_cons in Hin' as [->|?]; done.
Qed.

Lemma dict_set_keys_present d k v :
  k ∈ dict_keys d → dict_keys (dict_set k v d) = dict_keys d.
Proof. intros. by rewrite dict_set_keys, decide_True. Qed.

Lemma dict_set_NoDup d k v :
  NoDup (dict_keys d) → NoDup (dict_keys (dict_set k v d)).
Proof.
  intros Hd. rewrite dict_set_keys. case_decide; [done|].
  apply NoDup_app. split_and!; [done| |apply NoDup_singleton].
  intros x Hx ->%list_elem_of_singleton. done.
Qed.

Lemma dict_elem_get d k v :
  NoDup (dict_keys d) → (k, v) ∈ d → dict_get d k = Some v.
Proof.
  unfold dict_keys. induction d as [|[k0 v0] d IH]; simpl.
  - by intros _ ?%elem_of_nil.
  - intros [Hk0 Hd]%NoDup_cons [?|Hin]%elem_of_cons; simplify_eq.
    + by rewrite decide_True.
    + rewrite decide_False; [auto|]. intros ->. apply Hk0.
      by apply (list_elem_of_fmap_2 fst _ (k, v)).
Qed.

Lemma dict_mem_keys k d : dict_mem k d = true ↔ k ∈ dict_keys d.
Proof. unfold dict_mem. by rewrite bool_decide_eq_true. Qed.
End dict_facts.

(** ** The monad *)

Section monad_facts.
Context {S : Type}.

Lemma bind_inv {A B} (c : M S A) (k : A → M S B) st r st' :
  bind c k st = (r, st') →
  (∃ a st1, c st = (Ok a, st1) ∧ k a st1 = (r, st'))
  ∨ (∃ e, c st = (Raise e, st') ∧ r = Raise e).
Proof.
  unfold bind. destruct (c st) as [[a|e] st1]; intros ?; simplify_eq; eauto.
Qed.

Lemma bind_Ok {A B} (c : M S A) (k : A → M S B) st b st' :
  bind c k st = (Ok b, st') →
  ∃ a st1, c st = (Ok a, st1) ∧ k a st1 = (Ok b, st').
Proof. intros [?|(e & _ & ?)]%bind_inv; [done|discriminate]. Qed.

Lemma expect_Ok {A} e (o : option A) (st : S) a st' :
  expect e o st = (Ok a, st') → o = Some a ∧ st' = st.
Proof. destruct o; unfold expect, ret, raise; intros ?; by simplify_eq. Qed.

Lemma expect_state {A} e (o : option A) (st : S) r st' :
  expect e o st = (r, st') → st' = st.
Proof. destruct o; unfold expect, ret, raise; intros ?; by simplify_eq. Qed.

(** A property of the state that every iteration keeps, however it
    ends, holds after the loop, however it ends. *)
Lemma foldM_state {A B} (P : S → Prop) (f : B → A → M S B) l acc st r st' :
  (∀ acc x st r st', x ∈ l → P st → f acc x st = (r, st') → P st') →
  P st → foldM f acc l st = (r, st') → P st'.
Proof.
  revert acc st. induction l as [|x l IH]; simpl; intros acc st Hf HP Hrun.
  - unfold ret in Hrun. by simplify_eq.
  - apply bind_inv in Hrun as [(a & st1 & Hx & Hrest)|(e & Hx & _)].
    + eapply IH; [|eapply Hf; [left|exact HP|exact Hx]|exact Hrest].
      intros ??????. apply Hf. by right.
    + eapply Hf; [left|exact HP|exact Hx].
Qed.

(** A property of accumulator and state that every iteration which
    completes keeps, holds after a loop that completes. *)
Lemma foldM_Ok {A B} (P : B → S → Prop) (f : B → A → M S B) l acc st acc' st' :
  (∀ acc x st acc' st', x ∈ l → P acc st → f acc x st = (Ok acc', st') → P acc' st') →
  P acc st → foldM f acc l st = (Ok acc', st') → P acc' st'.
Proof.
  revert acc st. induction l as [|x l IH]; simpl; intros acc st Hf HP Hrun.
  - unfold ret in Hrun. by simplify_eq.
  - apply bind_Ok in Hrun as (a & st1 & Hx & Hrest).
    eapply IH; [|eapply Hf; [left|exact HP|exact Hx]|exact Hrest].
    intros ??????. apply Hf. by right.
Qed.

Lemma for_each_state {A} (P : S → Prop) (body : A → M S unit) l st r st' :
  (∀ x st r st', x ∈ l → P st → body x st = (r, st') → P st') →
  P st → for_each l body st = (r, st') → P st'.
Proof. intros Hb. apply foldM_state. intros _ x. apply Hb. Qed.

Lemma for_each_Ok {A} (P : S → Prop) (body : A → M S unit) l st u st' :
  (∀ x st u st', x ∈ l → P st → body x st = (Ok u, st') → P st') →
  P st → for_each l body st = (Ok u, st') → P st'.
Proof.
  intros Hb. apply (foldM_Ok (λ _, P)). intros _ x ? ? ?. apply Hb.
Qed.
End monad_facts.

(** ** Lists of lists *)

Lemma elem_of_concat {A} (x : A) (ls : list (list A)) :
  x ∈ concat ls ↔ ∃ l, l ∈ ls ∧ x ∈ l.
Proof.
  rewrite list_elem_of_In, in_concat. setoid_rewrite list_elem_of_In. done.
Qed.

(** ** The service layer *)

Section api_facts.
Variable site : site_t.

Lemma request_query_Ok ps log q log' :
  request_query site ps log = (Ok q, log') → site log ps = Some q ∧ log' = log ++ [ps].
Proof. unfold request_query. destruct (site log ps); intros ?; by simplify_eq. Qed.

Lemma request_query_log ps log r log' :
  request_query site ps log = (r, log') → log' = log ++ [ps].
Proof. unfold request_query. destruct (site log ps); intros ?; by simplify_eq. Qed.

(** *** [check_redirects] *)

Lemma check_page_links (P : string → Z → Prop) pages acc page log acc' log' :
  (∀ link pid, (link, pid) ∈ res_links acc → P link pid) →
  (∀ pg title, page ≠ -1 → dict_get pages page = Some pg →
     page_ns pg = Some 0 → page_title pg = Some title → P (normalize title) page) →
  check_page pages acc page log = (Ok acc', log') →
  ∀ link pid, (link, pid) ∈ res_links acc' → P link pid.
Proof.
  intros Hacc Hnew. unfold check_page.
  case_bool_decide as Hpage; [|unfold ret; intros ?; by simplify_eq].
  intros (pg & log1 & [Hpg ->]%expect_Ok & Hrun)%bind_Ok.
  destruct (page_ns pg) as [ns|] eqn:Hns; [|unfold ret in Hrun; by simplify_eq].
  case_bool_decide as Hzero; [|unfold ret in Hrun; by simplify_eq].
  apply bind_Ok in Hrun as (title & log2 & [Htitle ->]%expect_Ok & Hrun).
  unfold ret in Hrun. simplify_eq. simpl.
  intros link pid [?|?]%dict_set_elem; simplify_eq; eauto.
Qed.

Lemma check_batch_links (P : string → Z → Prop) acc title_list log acc' log' :
  (∀ link pid, (link, pid) ∈ res_links acc → P link pid) →
  (∀ link pid, kept_by site title_list link pid → P link pid) →
  check_batch site acc title_list log = (Ok acc', log') →
  ∀ link pid, (link, pid) ∈ res_links acc' → P link pid.
Proof.
  intros Hacc Hnew. unfold check_batch.
  intros (q & log1 & [Hq _]%request_query_Ok & Hrun)%bind_Ok.
  apply bind_Ok in Hrun as (pages & log2 & [Hpages ->]%expect_Ok & Hrun).
  revert Hrun.
  apply (foldM_Ok (λ acc _, ∀ link pid, (link, pid) ∈ res_links acc → P link pid));
    [|exact Hacc].
  intros acc1 page log3 acc2 log4 _ Hacc1 Hstep.
  eapply check_page_links; [exact Hacc1| |exact Hstep].
  intros pg title Hne Hpg Hns Htitle. apply Hnew.
  split; [done|]. exists pg, title. split_and!; try done.
  by exists log, q, pages.
Qed.

(** The test that [check_redirects] makes: an entry of the map it
    returns stands for a page the service returned whose id is not -1
    and whose namespace is 0; a title that the service returns only
    under the id -1 or in other namespaces has no entry. *)
Theorem check_redirects_filter titles log redirects links log' :
  check_redirects site titles log = (Ok (redirects, links), log') →
  (∀ link pid, (link, pid) ∈ links →
     ∃ title_list, title_list ∈ iterate (split_param_list titles)
                   ∧ kept_by site title_list link pid)
  ∧ (∀ link,
       (∀ title_list pid pg title,
          title_list ∈ iterate (split_param_list titles) →
          served site (redirects_params title_list) pid pg →
          page_title pg = Some title → normalize title = link →
          pid = -1 ∨ page_ns pg ≠ Some 0) →
       link ∉ dict_keys links).
Proof.
  intros Hrun.
  assert (∀ link pid, (link, pid) ∈ links →
     ∃ title_list, title_list ∈ iterate (split_param_list titles)
                   ∧ kept_by site title_list link pid) as Hkept.
  { unfold check_redirects in Hrun.
    apply bind_Ok in Hrun as (acc & log1 & Hloop & Hret).
    unfold ret in Hret. simplify_eq. revert Hloop.
    apply (foldM_Ok (λ acc _, ∀ link pid, (link, pid) ∈ res_links acc →
       ∃ title_list, title_list ∈ iterate (split_param_list titles)
                     ∧ kept_by site title_list link pid)).
    - intros acc1 title_list log2 acc2 log3 Hin Hacc1 Hstep.
      eapply check_batch_links; [exact Hacc1| |exact Hstep]. eauto.
    - simpl. by intros ?? ?%elem_of_nil. }
  split; [exact Hkept|].
  intros link Hnone [[link' pid] [-> Hin]]%list_elem_of_fmap.
  destruct (Hkept _ _ Hin) as (title_list & Hbatch & Hne & pg & title & Hs & Hns & Ht & Hl).
  simpl in Hl. destruct (Hnone title_list pid pg title) as [?|?]; done.
Qed.

(** *** [parse_text] *)

Lemma parse_page_run pages links pid log links' log' :
  parse_page pages links pid log = (Ok links', log') →
  log' = log
  ∧ links' = match page_article pages pid with
             | Some link => dict_set link 1 links
             | None => links
             end.
Proof.
  unfold parse_page, page_article.
  case_bool_decide as Hpid.
  - intros (pg & log1 & [Hpg ->]%expect_Ok & Hrun)%bind_Ok. rewrite Hpg.
    destruct (page_ns pg) as [ns|] eqn:Hns.
    + case_bool_decide as Hzero.
      * apply bind_Ok in Hrun as (title & log2 & [Htitle ->]%expect_Ok & Hrun).
        unfold ret in Hrun. simplify_eq.
        by rewrite bool_decide_eq_true_2, Htitle.
      * unfold ret in Hrun. simplify_eq.
        rewrite bool_decide_eq_false_2; [done|]. intros [_ ?]. by simplify_eq.
    + unfold ret in Hrun. simplify_eq.
      rewrite bool_decide_eq_false_2; [done|]. by intros [_ ?].
  - unfold ret. intros [= <- <-]. split; [done|].
    destruct (dict_get pages pid); [|done].
    rewrite bool_decide_eq_false_2; [done|]. by intros [? _].
Qed.

Lemma parse_pages_run pages pids links log links' log' :
  foldM (parse_page pages) links pids log = (Ok links', log') →
  log' = log
  ∧ links' = fold_left (λ links link, dict_set link 1 links)
               (omap (page_article pages) pids) links.
Proof.
  revert links log. induction pids as [|pid pids IH]; intros links log; simpl.
  - unfold ret. intros ?. by simplify_eq.
  - intros (links1 & log1 & [-> ->]%parse_page_run & Hrest)%bind_Ok.
    apply IH in Hrest as [-> ->]. split; [done|].
    by destruct (page_article pages pid).
Qed.

Lemma parse_batch_run links title_list log links' log' :
  parse_batch site links title_list log = (Ok links', log') →
  log' = log ++ [parse_params title_list]
  ∧ links' = fold_left (λ links link, dict_set link 1 links)
               (article_titles (answer_pages (site log (parse_params title_list))))
               links.
Proof.
  unfold parse_batch.
  intros (q & log1 & [Hq ->]%request_query_Ok & Hrun)%bind_Ok.
  rewrite Hq. unfold answer_pages.
  destruct (query_pages q) as [[|entry pages]|];
    [unfold ret in Hrun; by simplify_eq| |unfold ret in Hrun; by simplify_eq].
  by apply parse_pages_run in Hrun.
Qed.

Lemma parse_batches_run title_lists links log links' log' :
  foldM (parse_batch site) links title_lists log = (Ok links', log') →
  log' = log ++ (parse_params <$> title_lists)
  ∧ links' = fold_left (λ links link, dict_set link 1 links)
               (concat (article_titles ∘ answer_pages
                          <$> answers site log (parse_params <$> title_lists)))
               links.
Proof.
  revert links log.
  induction title_lists as [|title_list title_lists IH]; intros links log; simpl.
  - unfold ret. intros ?. simplify_eq. by rewrite app_nil_r.
  - intros (links1 & log1 & [-> ->]%parse_batch_run & Hrest)%bind_Ok.
    apply IH in Hrest as [-> ->]. split.
    + by rewrite <-app_assoc.
    + by rewrite fold_left_app.
Qed.
Lemma dict_keys_set_all (l : list string) (links : dict string Z) :
  dict_keys (fold_left (λ links link, dict_set link 1 links) l links)
  = add_new (dict_keys links) l.
Proof.
  unfold add_new. revert links. induction l as [|x l IH]; intros links; [done|].
  simpl. by rewrite IH, dict_set_keys.
Qed.

Lemma dict_values_set_all (l : list string) (links : dict string Z) :
  Forall (λ entry, entry.2 = 1) links →
  Forall (λ entry, entry.2 = 1)
    (fold_left (λ links link, dict_set link 1 links) l links).
Proof.
  revert links. induction l as [|x l IH]; intros links Hall; [done|].
  simpl. apply IH. apply Forall_forall.
  intros [k v] [?|?]%dict_set_elem; [by simplify_eq|].
  by apply (proj1 (Forall_forall _ _) Hall).
Qed.

Lemma add_new_NoDup seen l : NoDup seen → NoDup (add_new seen l).
Proof.
  unfold add_new. revert seen. induction l as [|x l IH]; intros seen Hnd; [done|].
  simpl. apply IH. case_decide; [done|].
  apply NoDup_app. split_and!; [done| |apply NoDup_singleton].
  by intros y Hy ->%list_elem_of_singleton.
Qed.

Lemma elem_of_add_new seen l x : x ∈ add_new seen l ↔ x ∈ seen ∨ x ∈ l.
Proof.
  unfold add_new. revert seen. induction l as [|y l IH]; intros seen; simpl.
  - rewrite elem_of_nil. tauto.
  - rewrite IH, elem_of_cons. case_decide as Hy.
    + split; [tauto|]. intros [?|[-> |?]]; auto.
    + rewrite elem_of_app, list_elem_of_singleton. tauto.
Qed.

Lemma elem_of_article_titles pages link :
  link ∈ article_titles pages ↔
  ∃ pid pg, dict_get pages pid = Some pg ∧ pid ≠ -1
            ∧ page_ns pg = Some 0 ∧ page_title pg = Some link.
Proof.
  unfold article_titles. rewrite list_elem_of_omap. unfold page_article. split.
  - intros (pid & _ & Hpid). destruct (dict_get pages pid) as [pg|] eqn:Hpg; [|done].
    case_bool_decide as Hkeep; [|done]. destruct Hkeep. by exists pid, pg.
  - intros (pid & pg & Hpg & Hne & Hns & Htitle). exists pid. split.
    + apply dict_get_is_Some. by rewrite Hpg.
    + by rewrite Hpg, bool_decide_eq_true_2.
Qed.

(** C4, as the code has it: [parse_text] does not hand back the raw
    candidates.  It sends them all, in the order of the text, to the
    service, one request per batch and nothing else; the dictionary it
    returns has as its keys exactly the titles of the pages that the
    service returned for these requests under an id other than the
    missing-page sentinel and in namespace 0, each once, in the order
    in which the service first returned them, and every value is 1. *)
Theorem parse_text_resolved content log links log' :
  parse_text site content log = (Ok links, log') →
  let requests :=
    parse_params <$> iterate (split_param_list (re_findall linkP content)) in
  log' = log ++ requests
  ∧ NoDup (dict_keys links)
  ∧ (∀ link, link ∈ dict_keys links ↔
       ∃ pid pg, returned site log requests pid pg ∧ pid ≠ -1
                 ∧ page_ns pg = Some 0 ∧ page_title pg = Some link)
  ∧ dict_keys links
    = first_occurrences
        (concat (article_titles ∘ answer_pages <$> answers site log requests))
  ∧ Forall (λ entry, entry.2 = 1) links.
Proof.
  unfold parse_text. intros [-> ->]%parse_batches_run. cbv zeta.
  set (requests :=
    parse_params <$> iterate (split_param_list (re_findall linkP content))).
  rewrite dict_keys_set_all. change (dict_keys []) with (@nil string).
  split_and!.
  - done.
  - apply add_new_NoDup. constructor.
  - intros link. rewrite elem_of_add_new, elem_of_nil, elem_of_concat.
    split.
    + intros [[]|(titles & Htitles & Hlink)].
      apply list_elem_of_fmap in Htitles as (answer & -> & Hanswer).
      apply elem_of_article_titles in Hlink as (pid & pg & Hpg & Hne & Hns & Ht).
      exists pid, pg. split_and!; try done.
      destruct answer as [q|]; [|done]. simpl in Hpg.
      destruct (query_pages q) as [pages|] eqn:Hpages; [|done].
      by exists q, pages.
    + intros (pid & pg & (q & pages & Hq & Hpages & Hpg) & Hne & Hns & Ht).
      right. exists (article_titles pages). split.
      * apply list_elem_of_fmap. exists (Some q). split; [|done].
        simpl. by rewrite Hpages.
      * apply elem_of_article_titles. by exists pid, pg.
  - done.
  - apply dict_values_set_all. constructor.
Qed.

(** *** [get_outlinks_from_api] *)

(** C7, as the code has it: for the empty title and for the title made
    of one space, [get_outlinks_from_api] returns the not-found page id
    and no outlinks, and sends no request. *)
Theorem get_outlinks_from_api_blank title log :
  title = "" ∨ title = " " →
  get_outlinks_from_api site title log = (Ok (-1, []), log).
Proof.
  intros Hblank. unfold get_outlinks_from_api.
  by rewrite bool_decide_eq_true_2.
Qed.

Lemma parse_page_log pages links page log r log' :
  parse_page pages links page log = (r, log') → log' = log.
Proof.
  unfold parse_page. case_bool_decide; [|unfold ret; intros ?; by simplify_eq].
  intros [(pg & log1 & [_ ->]%expect_Ok & Hrun)|(e & ?%expect_state & _)]%bind_inv;
    [|done].
  destruct (page_ns pg); [|unfold ret in Hrun; by simplify_eq].
  case_bool_decide; [|unfold ret in Hrun; by simplify_eq].
  apply bind_inv in Hrun
    as [(t & log2 & [_ ->]%expect_Ok & Hrun)|(e & ?%expect_state & _)]; [|done].
  unfold ret in Hrun. by simplify_eq.
Qed.

Lemma parse_text_log content log r log' :
  parse_text site content log = (r, log') → ∃ more, log' = log ++ more.
Proof.
  unfold parse_text. apply (foldM_state (λ st, ∃ more, st = log ++ more));
    [|exists []; by rewrite app_nil_r].
  intros links title_list log1 r1 log2 _ [more ->]. unfold parse_batch.
  intros [(q & log3 & [_ ->]%request_query_Ok & Hrun)
         |(e & ->%request_query_log & _)]%bind_inv.
  - assert (log2 = (log ++ more) ++ [parse_params title_list]) as ->.
    { destruct (query_pages q) as [[|entry pages]|];
        [unfold ret in Hrun; by simplify_eq| |unfold ret in Hrun; by simplify_eq].
      revert Hrun. apply (foldM_state (λ st, st = _)); [|done].
      intros ????? _ -> Hstep. by apply parse_page_log in Hstep. }
    eexists. by rewrite <-app_assoc.
  - eexists. by rewrite <-app_assoc.
Qed.

(** Any other title is sent to the service. *)
Lemma get_outlinks_from_api_asks title log r log' :
  ¬ (title = "" ∨ title = " ") →
  get_outlinks_from_api site title log = (r, log') →
  ∃ more, log' = log ++ content_params title :: more.
Proof.
  intros Hblank. unfold get_outlinks_from_api.
  rewrite bool_decide_eq_false_2 by done.
  intros [(q & log1 & [Hq ->]%request_query_Ok & Hrun)
         |(e & ->%request_query_log & _)]%bind_inv; [|by exists []].
  assert (∃ more, log' = (log ++ [content_params title]) ++ more) as [more ->];
    [|exists more; by rewrite <-app_assoc].
  repeat match type of Hrun with
  | bind (expect _ _) _ _ = _ =>
      apply bind_inv in Hrun
        as [(? & ? & [_ ->]%expect_Ok & Hrun)|(? & ->%expect_state & _)];
      [|exists []; by rewrite app_nil_r]
  | (if ?b then _ else _) _ = _ => destruct b
  | ret _ _ = _ => unfold ret in Hrun; simplify_eq; exists []; by rewrite app_nil_r
  end.
  apply bind_inv in Hrun as [(links & log2 & Hparse & Hrun)|(e & Hparse & _)];
    apply parse_text_log in Hparse as [more ->]; [|by exists more].
  unfold ret in Hrun. simplify_eq. by exists more.
Qed.
End api_facts.

(** ** Invariants of computations *)

Section keeps_facts.
Context {S : Type}.
Implicit Types P : S → Prop.

Lemma keeps_ret {A} P (a : A) : keeps P (ret a).
Proof. intros st r st' HP ?. unfold ret in *. by simplify_eq. Qed.

Lemma keeps_raise {A} P e : keeps P (@raise S A e).
Proof. intros st r st' HP ?. unfold raise in *. by simplify_eq. Qed.

Lemma keeps_expect {A} P e (o : option A) : keeps P (expect e o).
Proof. destruct o; [apply keeps_ret|apply keeps_raise]. Qed.

Lemma keeps_bind {A B} P (c : M S A) (k : A → M S B) :
  keeps P c → (∀ a, keeps P (k a)) → keeps P (bind c k).
Proof.
  intros Hc Hk st r st' HP [(a & st1 & Hrun & Hrest)|(e & Hrun & _)]%bind_inv.
  - eapply Hk; [|exact Hrest]. eapply Hc; [exact HP|exact Hrun].
  - eapply Hc; [exact HP|exact Hrun].
Qed.

Lemma keeps_foldM {A B} P (f : B → A → M S B) l acc :
  (∀ acc x, x ∈ l → keeps P (f acc x)) → keeps P (foldM f acc l).
Proof.
  intros Hf st r st' HP. apply (foldM_state P); [|done].
  intros acc1 x st1 r1 st2 Hin HP1. by apply Hf.
Qed.

Lemma keeps_for_each {A} P (body : A → M S unit) l :
  (∀ x, x ∈ l → keeps P (body x)) → keeps P (for_each l body).
Proof. intros Hb. apply keeps_foldM. intros _ x. apply Hb. Qed.

Lemma keeps_keeps_ok {A} P (c : M S A) : keeps P c → keeps_ok P c.
Proof. intros Hc st a st'. apply Hc. Qed.

Lemma keeps_ok_bind {A B} P (c : M S A) (k : A → M S B) :
  keeps_ok P c → (∀ a, keeps_ok P (k a)) → keeps_ok P (bind c k).
Proof.
  intros Hc Hk st b st' HP (a & st1 & Hrun & Hrest)%bind_Ok.
  eapply Hk; [|exact Hrest]. eapply Hc; [exact HP|exact Hrun].
Qed.

Lemma keeps_ok_foldM {A B} P (f : B → A → M S B) l acc :
  (∀ acc x, x ∈ l → keeps_ok P (f acc x)) → keeps_ok P (foldM f acc l).
Proof.
  intros Hf st r st' HP. apply (foldM_Ok (λ _, P)); [|done].
  intros acc1 x st1 r1 st2 Hin HP1. by apply Hf.
Qed.

Lemma keeps_ok_for_each {A} P (body : A → M S unit) l :
  (∀ x, x ∈ l → keeps_ok P (body x)) → keeps_ok P (for_each l body).
Proof. intros Hb. apply keeps_ok_foldM. intros _ x. apply Hb. Qed.
End keeps_facts.

(** ** The crawl: what each operation touches *)

Section frame_env.
(** A property of the link files, the edge stream and the degree table. *)
Variable Q : gmap string string → list (string * string) → dict string degree → Prop.
Let P (st : env) : Prop := Q (files st) (net_file st) (first_step st).

Lemma keeps_api {A} (c : M (list params) A) : keeps P (api c).
Proof.
  intros st r st' HP. unfold api. destruct (c (requests st)) as [r1 log].
  intros ?. by simplify_eq.
Qed.

Lemma keeps_read_lines name : keeps P (read_lines name).
Proof.
  intros st r st' HP. unfold read_lines. destruct (files st !! name);
    intros ?; by simplify_eq.
Qed.

Lemma keeps_get_outlinks_env site title : keeps P (get_outlinks site title).
Proof.
  unfold get_outlinks. apply keeps_bind; [apply keeps_read_lines|].
  intros [|line lines]; [|apply keeps_ret].
  apply keeps_bind; [apply keeps_api|]. intros [p outlinks].
  apply keeps_bind; [apply keeps_api|]. intros [redirects links].
  apply keeps_ret.
Qed.
End frame_env.

Section frame_graph.
(** A property of the edge stream and the degree table. *)
Variable G : list (string * string) → dict string degree → Prop.
Let P (st : env) : Prop := G (net_file st) (first_step st).

Lemma keeps_open_append name : keeps P (open_append name).
Proof. intros st r st' HP ?. unfold open_append in *. by simplify_eq. Qed.

Lemma keeps_open_write name : keeps P (open_write name).
Proof. intros st r st' HP ?. unfold open_write in *. by simplify_eq. Qed.

Lemma keeps_file_write name text : keeps P (file_write name text).
Proof. intros st r st' HP ?. unfold file_write in *. by simplify_eq. Qed.

Lemma keeps_get_outlinks site title : keeps P (get_outlinks site title).
Proof. apply (keeps_get_outlinks_env (λ _, G)). Qed.
End frame_graph.

Section frame_files.
(** A property of the link files. *)
Variable H : gmap string string → Prop.
Let P (st : env) : Prop := H (files st).

Lemma files_net_file_write s t : keeps P (net_file_write s t).
Proof. intros st r st' HP ?. unfold net_file_write in *. by simplify_eq. Qed.

Lemma files_update_record k f : keeps P (update_record k f).
Proof.
  intros st r st' HP.
  unfold update_record, bind, get_first_step, expect, set_first_step, ret, raise.
  destruct (dict_get (first_step st) k); intros ?; by simplify_eq.
Qed.
End frame_files.

(** ** The crawl: edges and degrees *)

Lemma count_source_snoc t edges s t' :
  count_source t (edges ++ [(s, t')]) =
  count_source t edges + (if decide (s = t) then 1 else 0).
Proof.
  unfold count_source, len. rewrite filter_app, length_app.
  rewrite filter_cons, filter_nil. simpl. case_decide; simpl; lia.
Qed.

Lemma count_target_snoc t edges s t' :
  count_target t (edges ++ [(s, t')]) =
  count_target t edges + (if decide (t' = t) then 1 else 0).
Proof.
  unfold count_target, len. rewrite filter_app, length_app.
  rewrite filter_cons, filter_nil. simpl. case_decide; simpl; lia.
Qed.

Section level0_facts.
Variable seeds_list : dict string Z.

Lemma level0_source_deg seed target outlinks fs x :
  deg_in (level0_source seeds_list seed target outlinks fs) x = deg_in fs x
  ∧ deg_out (level0_source seeds_list seed target outlinks fs) x
    = deg_out fs x + (if decide (seed = x) then 1 else 0).
Proof.
  unfold level0_source.
  destruct (dict_get fs seed) as [r|] eqn:Hr, (dict_mem target seeds_list);
    unfold deg_in, deg_out; rewrite !dict_get_set;
    case_decide; subst; rewrite ?Hr; simpl; lia.
Qed.

Lemma level0_sink_deg target fs x :
  deg_in (level0_sink seeds_list target fs) x
  = deg_in fs x + (if decide (target = x) then 1 else 0)
  ∧ deg_out (level0_sink seeds_list target fs) x = deg_out fs x.
Proof.
  unfold level0_sink.
  destruct (dict_get fs target) as [r|] eqn:Hr, (dict_mem target seeds_list);
    unfold deg_in, deg_out; rewrite !dict_get_set;
    case_decide; subst; rewrite ?Hr; simpl; lia.
Qed.

Lemma level0_source_NoDup seed target outlinks fs :
  NoDup (dict_keys fs) →
  NoDup (dict_keys (level0_source seeds_list seed target outlinks fs)).
Proof.
  intros. unfold level0_source.
  destruct (dict_get fs seed), (dict_mem target seeds_list);
    by apply dict_set_NoDup.
Qed.

Lemma level0_sink_NoDup target fs :
  NoDup (dict_keys fs) → NoDup (dict_keys (level0_sink seeds_list target fs)).
Proof.
  intros. unfold level0_sink.
  destruct (dict_get fs target), (dict_mem target seeds_list);
    by apply dict_set_NoDup.
Qed.

(** What one round of the inner loop of the first pass does. *)
Lemma level0_target_run seed is_new_page outlinks target st :
  level0_target seeds_list seed is_new_page outlinks target st =
    (Ok tt,
     if decide (seed = target) then st
     else Env (if is_new_page
               then <[articles_file seed :=
                        default "" (files st !! articles_file seed)
                        +:+ (target +:+ NL)]> (files st)
               else files st)
              (requests st) (net_file st ++ [(seed, target)])
              (level0_sink seeds_list target
                 (level0_source seeds_list seed target outlinks (first_step st)))).
Proof.
  unfold level0_target. destruct (decide (seed = target)) as [Heq|Hne].
  - by rewrite bool_decide_eq_false_2 by auto.
  - rewrite bool_decide_eq_true_2 by done.
    destruct is_new_page; [reflexivity|by destruct st].
Qed.
End level0_facts.

Lemma set_out_WP_same_degrees fs k r n :
  dict_get fs k = Some r → same_degrees fs (dict_set k (set_out_WP n r) fs).
Proof.
  intros Hr. split.
  - intros x. unfold deg_in, deg_out. rewrite !dict_get_set.
    case_decide; subst; rewrite ?Hr; done.
  - apply dict_set_keys_present, dict_get_is_Some. by rewrite Hr.
Qed.

Lemma level0_records_edge seeds_list seed target outlinks fs :
  records_edge seed target fs
    (level0_sink seeds_list target
       (level0_source seeds_list seed target outlinks fs)).
Proof.
  split.
  - intros x.
    destruct (level0_sink_deg seeds_list target
                (level0_source seeds_list seed target outlinks fs) x) as [-> ->].
    by destruct (level0_source_deg seeds_list seed target outlinks fs x) as [-> ->].
  - intros. by apply level0_sink_NoDup, level0_source_NoDup.
Qed.

Section level0_loop.
Variable site : site_t.
Variable seeds_list : dict string Z.
Variable G : list (string * string) → dict string degree → Prop.
Let P (st : env) : Prop := G (net_file st) (first_step st).

Hypothesis G_same : ∀ edges fs fs', G edges fs → same_degrees fs fs' → G edges fs'.
Hypothesis G_edge : ∀ edges fs fs' s t,
  G edges fs → s ≠ t → records_edge s t fs fs' → G (edges ++ [(s, t)]) fs'.

Lemma keeps_level0_target seed is_new_page outlinks target :
  keeps P (level0_target seeds_list seed is_new_page outlinks target).
Proof.
  intros st r st' HP.
  rewrite level0_target_run. intros ?. simplify_eq. case_decide; [done|].
  unfold P. simpl. eapply G_edge; [exact HP|done|apply level0_records_edge].
Qed.

Lemma keeps_level0_seed links_to_seedlinks seed :
  keeps P (level0_seed site seeds_list links_to_seedlinks seed).
Proof.
  unfold level0_seed. apply keeps_bind; [apply keeps_get_outlinks|].
  intros [is_new_page outlinks]. apply keeps_bind.
  - destruct is_new_page; [|apply keeps_ret].
    apply keeps_bind; [apply keeps_open_append|]. intros _.
    intros st r st' HP. unfold bind, get_first_step.
    destruct (dict_get (first_step st) seed) as [rec|] eqn:Hrec;
      unfold set_first_step, ret; intros ?; simplify_eq; [|done].
    unfold P. simpl. eapply G_same; [exact HP|].
    by apply set_out_WP_same_degrees.
  - intros _. apply keeps_bind; [|intros _; apply keeps_ret].
    apply keeps_for_each. intros target _. apply keeps_level0_target.
Qed.

Lemma keeps_level0_loop acc seeds :
  keeps P (foldM (level0_seed site seeds_list) acc seeds).
Proof. apply keeps_foldM. intros ? seed _. apply keeps_level0_seed. Qed.
End level0_loop.

Lemma update_record_Ok k f st u st' :
  update_record k f st = (Ok u, st') →
  ∃ r, dict_get (first_step st) k = Some r
       ∧ st' = Env (files st) (requests st) (net_file st)
                   (dict_set k (f r) (first_step st)).
Proof.
  unfold update_record, bind, get_first_step, expect, set_first_step, ret, raise.
  destruct (dict_get (first_step st) k) as [r|]; intros ?; simplify_eq. eauto.
Qed.

Lemma update_record_net_file k f st r st' :
  update_record k f st = (r, st') → net_file st' = net_file st.
Proof.
  unfold update_record, bind, get_first_step, expect, set_first_step, ret, raise.
  destruct (dict_get (first_step st) k); intros ?; by simplify_eq.
Qed.

(** An update of the record of [k] that adds [din] and [dout] to its
    degrees. *)
Lemma update_record_effect k f din dout st u st' :
  (∀ r, in_degree (f r) = in_degree r + din ∧ out_degree (f r) = out_degree r + dout) →
  update_record k f st = (Ok u, st') →
  net_file st' = net_file st
  ∧ k ∈ dict_keys (first_step st)
  ∧ dict_keys (first_step st') = dict_keys (first_step st)
  ∧ ∀ x, deg_in (first_step st') x
         = deg_in (first_step st) x + (if decide (k = x) then din else 0)
         ∧ deg_out (first_step st') x
           = deg_out (first_step st) x + (if decide (k = x) then dout else 0).
Proof.
  intros Hf (r & Hr & ->)%update_record_Ok. simpl.
  assert (k ∈ dict_keys (first_step st)) as Hk
    by (apply dict_get_is_Some; by rewrite Hr).
  split_and!; [done|done|by apply dict_set_keys_present|].
  intros x. unfold deg_in, deg_out. rewrite !dict_get_set.
  destruct (Hf r) as [Hin Hout].
  case_decide; subst; rewrite ?Hr; simpl; lia.
Qed.

Section level1_loop.
Variable site : site_t.
Variable seeds_list : dict string Z.
Variable links_to_seedlinks : list string.

(** The edges the second pass may write. *)
Let allowed (s t : string) : Prop :=
  s ≠ t ∧ (t ∈ dict_keys seeds_list ∨ t ∈ links_to_seedlinks).

Section any_result.
Variable R : list (string * string) → Prop.
Let P (st : env) : Prop := R (net_file st).

Hypothesis R_edge : ∀ edges s t, R edges → allowed s t → R (edges ++ [(s, t)]).

Lemma keeps_update_record k f : keeps P (update_record k f).
Proof.
  intros st r st' HP Hrun. unfold P.
  by rewrite (update_record_net_file _ _ _ _ _ Hrun).
Qed.

Lemma keeps_net_file_write s t : allowed s t → keeps P (net_file_write s t).
Proof.
  intros Hst st r st' HP ?. unfold net_file_write in *. simplify_eq.
  unfold P. simpl. by apply R_edge.
Qed.

Lemma keeps_level1_target title is_new_page target :
  keeps P (level1_target seeds_list links_to_seedlinks title is_new_page target).
Proof.
  unfold level1_target. apply keeps_bind.
  { destruct is_new_page; [|apply keeps_ret].
    apply (keeps_file_write (λ edges _, R edges)). }
  intros _.
  destruct (dict_mem target seeds_list && bool_decide (target ≠ title))
    eqn:Hseed.
  { apply andb_prop in Hseed
      as [Hmem%dict_mem_keys Hne%bool_decide_eq_true].
    apply keeps_bind; [apply keeps_net_file_write; split; auto|].
    intros _. repeat (apply keeps_bind; [apply keeps_update_record|intros _]).
    apply keeps_update_record. }
  destruct (bool_decide (target ∈ links_to_seedlinks)
            && bool_decide (target ≠ title)) eqn:Hfront; [|apply keeps_ret].
  apply andb_prop in Hfront
    as [Hmem%bool_decide_eq_true Hne%bool_decide_eq_true].
  apply keeps_bind; [apply keeps_net_file_write; split; auto|].
  intros _. repeat (apply keeps_bind; [apply keeps_update_record|intros _]).
  apply keeps_update_record.
Qed.

Lemma keeps_level1_title title :
  keeps P (level1_title site seeds_list links_to_seedlinks title).
Proof.
  unfold level1_title. apply keeps_bind.
  { apply (keeps_get_outlinks (λ edges _, R edges)). }
  intros [is_new_page outlinks]. apply keeps_bind.
  - destruct is_new_page; [|apply keeps_ret].
    apply keeps_bind; [|intros _; apply keeps_update_record].
    apply (keeps_open_write (λ edges _, R edges)).
  - intros _. apply keeps_for_each. intros target _.
    apply keeps_level1_target.
Qed.

Lemma keeps_level1 titles :
  keeps P (for_each titles (level1_title site seeds_list links_to_seedlinks)).
Proof. apply keeps_for_each. intros title _. apply keeps_level1_title. Qed.
End any_result.

Section completed.
Variable G : list (string * string) → dict string degree → Prop.
Let P (st : env) : Prop := G (net_file st) (first_step st).

Hypothesis G_same : ∀ edges fs fs', G edges fs → same_degrees fs fs' → G edges fs'.
Hypothesis G_edge : ∀ edges fs fs' s t,
  G edges fs → allowed s t → records_edge s t fs fs' →
  t ∈ dict_keys fs → dict_keys fs' = dict_keys fs →
  G (edges ++ [(s, t)]) fs'.

(** Once the line is written, the updates that complete count the
    edge: an update of the source that leaves the degrees alone, one
    more out for the source, one more in for the target. *)
Lemma level1_counts_Ok title target f edges st u st' :
  (∀ r, in_degree (f r) = in_degree r ∧ out_degree (f r) = out_degree r) →
  allowed title target → G edges (first_step st) →
  bind (update_record title f) (λ _,
    bind (update_record title incr_out_degree) (λ _,
      update_record target incr_in_degree)) st = (Ok u, st') →
  net_file st' = net_file st ∧ G (edges ++ [(title, target)]) (first_step st').
Proof.
  intros Hf Hallowed HG ([] & st1 & Hsame & Hrun)%bind_Ok.
  apply bind_Ok in Hrun as ([] & st2 & Hout & Hin).
  apply (update_record_effect _ _ 0 0) in Hsame as (Hnet1 & _ & Hkeys1 & Hdeg1);
    [|intros r; destruct (Hf r) as [-> ->]; lia].
  apply (update_record_effect _ _ 0 1) in Hout as (Hnet2 & _ & Hkeys2 & Hdeg2);
    [|intros []; simpl; lia].
  apply (update_record_effect _ _ 1 0) in Hin as (Hnet3 & Hkey & Hkeys3 & Hdeg3);
    [|intros []; simpl; lia].
  split; [congruence|].
  apply (G_edge edges (first_step st)); [exact HG|exact Hallowed| |congruence|congruence].
  split.
  - intros x. destruct (Hdeg3 x) as [-> ->], (Hdeg2 x) as [-> ->],
      (Hdeg1 x) as [-> ->].
    repeat case_decide; lia.
  - intros Hnd. by rewrite Hkeys3, Hkeys2, Hkeys1.
Qed.

Lemma level1_seed_edge_Ok title target :
  allowed title target →
  keeps_ok P
    (bind (net_file_write title target) (λ _,
       bind (update_record title incr_links_to_seed) (λ _,
         bind (update_record title incr_out_degree) (λ _,
           update_record target incr_in_degree)))).
Proof.
  intros Hallowed st u st' HP ([] & st1 & Hwrite & Hrun)%bind_Ok.
  unfold net_file_write in Hwrite. simplify_eq.
  eapply (level1_counts_Ok _ _ _ (net_file st)) in Hrun as [Hnet HG];
    [|intros []; simpl; lia|exact Hallowed|exact HP].
  unfold P. by rewrite Hnet.
Qed.

Lemma level1_frontier_edge_Ok title target :
  allowed title target →
  keeps_ok P
    (bind (net_file_write title target) (λ _,
       bind (update_record title incr_out_degree) (λ _,
         update_record target incr_in_degree))).
Proof.
  intros Hallowed st u st' HP ([] & st1 & Hwrite & Hrun)%bind_Ok.
  unfold net_file_write in Hwrite. simplify_eq.
  apply bind_Ok in Hrun as ([] & st2 & Hout & Hin).
  apply (update_record_effect _ _ 0 1) in Hout as (Hnet2 & _ & Hkeys2 & Hdeg2);
    [|intros []; simpl; lia].
  apply (update_record_effect _ _ 1 0) in Hin as (Hnet3 & Hkey & Hkeys3 & Hdeg3);
    [|intros []; simpl; lia].
  simpl in *. unfold P. rewrite Hnet3, Hnet2.
  apply (G_edge _ (first_step st)); [exact HP|exact Hallowed| |congruence|congruence].
  split.
  - intros x. destruct (Hdeg3 x) as [-> ->], (Hdeg2 x) as [-> ->].
    repeat case_decide; lia.
  - intros Hnd. by rewrite Hkeys3, Hkeys2.
Qed.

Lemma update_record_same k f :
  (∀ r, in_degree (f r) = in_degree r ∧ out_degree (f r) = out_degree r) →
  keeps_ok P (update_record k f).
Proof.
  intros Hf st u st' HP Hrun.
  apply (update_record_effect _ _ 0 0) in Hrun as (Hnet & _ & Hkeys & Hdeg).
  - unfold P. rewrite Hnet. eapply G_same; [exact HP|].
    split; [|done]. intros x. destruct (Hdeg x) as [-> ->].
    case_decide; lia.
  - intros r. destruct (Hf r) as [-> ->]. lia.
Qed.

Lemma keeps_ok_level1_target title is_new_page target :
  keeps_ok P (level1_target seeds_list links_to_seedlinks title is_new_page target).
Proof.
  unfold level1_target. apply keeps_ok_bind.
  { apply keeps_keeps_ok. destruct is_new_page; [|apply keeps_ret].
    apply (keeps_file_write G). }
  intros _.
  destruct (dict_mem target seeds_list && bool_decide (target ≠ title))
    eqn:Hseed.
  { apply andb_prop in Hseed
      as [Hmem%dict_mem_keys Hne%bool_decide_eq_true].
    apply level1_seed_edge_Ok. split; auto. }
  destruct (bool_decide (target ∈ links_to_seedlinks)
            && bool_decide (target ≠ title)) eqn:Hfront;
    [|apply keeps_keeps_ok, keeps_ret].
  apply andb_prop in Hfront
    as [Hmem%bool_decide_eq_true Hne%bool_decide_eq_true].
  apply level1_frontier_edge_Ok. split; auto.
Qed.

Lemma keeps_ok_level1_title title :
  keeps_ok P (level1_title site seeds_list links_to_seedlinks title).
Proof.
  unfold level1_title. apply keeps_ok_bind.
  { apply keeps_keeps_ok, (keeps_get_outlinks G). }
  intros [is_new_page outlinks]. apply keeps_ok_bind.
  - destruct is_new_page; [|apply keeps_keeps_ok, keeps_ret].
    apply keeps_ok_bind; [|intros _; by apply update_record_same].
    apply keeps_keeps_ok, (keeps_open_write G).
  - intros _. apply keeps_ok_for_each. intros target _.
    apply keeps_ok_level1_target.
Qed.

Lemma keeps_ok_level1 titles :
  keeps_ok P (for_each titles (level1_title site seeds_list links_to_seedlinks)).
Proof. apply keeps_ok_for_each. intros title _. apply keeps_ok_level1_title. Qed.
End completed.
End level1_loop.

(** ** The crawl: the claims about [extract_network] *)

Section extract_network_facts.
Variable site : site_t.
Variable set_order : list string → list string.

(** Python iterates over a set once per element, in some order. *)
Hypothesis set_order_perm : ∀ l, set_order l ≡ₚ remove_dups l.

Lemma frontier_spec seeds_list lls :
  NoDup (frontier set_order seeds_list lls)
  ∧ ∀ t, t ∈ frontier set_order seeds_list lls ↔
         (∃ outlinks, outlinks ∈ lls ∧ t ∈ outlinks) ∧ t ∉ dict_keys seeds_list.
Proof.
  unfold frontier. split.
  - rewrite set_order_perm. apply NoDup_remove_dups.
  - intros t. rewrite set_order_perm, elem_of_remove_dups, list_elem_of_filter.
    rewrite elem_of_concat. split; [by intros [? ?]|by intros [? ?]].
Qed.

(** The two passes in a row. *)
Lemma extract_network_passes seed_file st :
  extract_network site set_order seed_file st =
  match level0 site set_order (load_seed seed_file) st with
  | (Ok lls, st0) =>
      match level1 site (load_seed seed_file)
              (frontier set_order (load_seed seed_file) lls) st0 with
      | (Ok _, st1) => (Ok (first_step st1), st1)
      | (Raise e, st1) => (Raise e, st1)
      end
  | (Raise e, st0) => (Raise e, st0)
  end.
Proof.
  unfold extract_network, bind.
  destruct (level0 _ _ _ _) as [[lls|e] st0]; [|done].
  by destruct (level1 _ _ _ _) as [[u|e] st1].
Qed.

Lemma keeps_set_first_step (R : list (string * string) → Prop) fs :
  keeps (λ st, R (net_file st)) (set_first_step fs).
Proof. intros st r st' HP ?. unfold set_first_step in *. by simplify_eq. Qed.

(** Every line of the edge stream comes from one of the two loops, and
    the second loop writes allowed edges only. *)
Lemma keeps_extract_network (R : list (string * string) → Prop) seed_file :
  (∀ edges s t, R edges → s ≠ t → R (edges ++ [(s, t)])) →
  keeps (λ st, R (net_file st)) (extract_network site set_order seed_file).
Proof.
  intros R_edge. unfold extract_network, level0, level1.
  apply keeps_bind.
  { apply keeps_bind; [apply keeps_set_first_step|]. intros _.
    apply (keeps_level0_loop site _ (λ edges _, R edges)); [done|].
    intros edges _ _ s t ? ? _. by apply R_edge. }
  intros lls. apply keeps_bind.
  { apply keeps_level1. intros edges s t ? [? _]. by apply R_edge. }
  intros _ st r st' HP ?. unfold get_first_step in *. by simplify_eq.
Qed.

(** C3: no line of the edge stream joins a title to itself, in the
    first pass or in the second, whether the run completes or not. *)
Theorem no_self_edges seed_file fs :
  Forall (λ e, e.1 ≠ e.2)
    (net_file (extract_network site set_order seed_file (notebook_env fs)).2).
Proof.
  destruct (extract_network _ _ _ _) as [r st] eqn:Hrun. simpl.
  revert Hrun. apply (keeps_extract_network (Forall (λ e, e.1 ≠ e.2)));
    [|constructor].
  intros edges s t Hedges Hne. apply Forall_app. split; [done|].
  by repeat constructor.
Qed.

(** C2: the lines the second pass adds to the edge stream all point
    to a seed or to a member of the frontier, and the frontier is the
    union of the level-0 outlink lists without the seeds, each title
    once. *)
Theorem frontier_closure seed_file fs lls st0 :
  level0 site set_order (load_seed seed_file) (notebook_env fs) = (Ok lls, st0) →
  (NoDup (frontier set_order (load_seed seed_file) lls)
   ∧ ∀ t, t ∈ frontier set_order (load_seed seed_file) lls ↔
          (∃ outlinks, outlinks ∈ lls ∧ t ∈ outlinks)
          ∧ t ∉ dict_keys (load_seed seed_file))
  ∧ ∃ edges1,
      net_file (extract_network site set_order seed_file (notebook_env fs)).2
      = net_file st0 ++ edges1
      ∧ Forall (λ e, e.2 ∈ dict_keys (load_seed seed_file)
                     ∨ e.2 ∈ frontier set_order (load_seed seed_file) lls) edges1.
Proof.
  intros Hlevel0. split; [apply frontier_spec|].
  rewrite extract_network_passes, Hlevel0.
  set (seeds_list := load_seed seed_file).
  set (links_to_seedlinks := frontier set_order seeds_list lls).
  assert (∀ r st1, level1 site seeds_list links_to_seedlinks st0 = (r, st1) →
    ∃ edges1, net_file st1 = net_file st0 ++ edges1
      ∧ Forall (λ e, e.2 ∈ dict_keys seeds_list ∨ e.2 ∈ links_to_seedlinks) edges1)
    as Hlevel1.
  { intros r st1. unfold level1.
    apply (keeps_level1 site seeds_list links_to_seedlinks
             (λ edges, ∃ edges1, edges = net_file st0 ++ edges1
                ∧ Forall (λ e, e.2 ∈ dict_keys seeds_list
                               ∨ e.2 ∈ links_to_seedlinks) edges1)).
    - intros edges s t (edges1 & -> & Hall) [_ Ht].
      exists (edges1 ++ [(s, t)]). split; [by rewrite app_assoc|].
      apply Forall_app. split; [done|]. constructor; [exact Ht|constructor].
    - exists []. split; [by rewrite app_nil_r|constructor]. }
  specialize (Hlevel1 _ _ (surjective_pairing _)).
  by destruct (level1 _ _ _ _) as [[u|e] st1].
Qed.

Lemma agree_same edges fs fs' : agree edges fs → same_degrees fs fs' → agree edges fs'.
Proof.
  intros [Hdeg Hnd] [Hsame Hkeys]. split; [|by rewrite Hkeys].
  intros t. destruct (Hsame t) as [-> ->]. apply Hdeg.
Qed.

Lemma agree_edge edges fs fs' s t :
  agree edges fs → records_edge s t fs fs' → agree (edges ++ [(s, t)]) fs'.
Proof.
  intros [Hdeg Hnd] [Hrec Hnd']. split; [|auto].
  intros x. destruct (Hrec x) as [-> ->], (Hdeg x) as [-> ->].
  by rewrite count_target_snoc, count_source_snoc.
Qed.

(** C1: when [extract_network] reaches the export, each row of the
    exported table has as [in_degree] the number of lines of the edge
    stream with the row's title as target, and as [out_degree] the
    number of lines with it as source. *)
Theorem degree_consistency seed_file fs table st :
  extract_network site set_order seed_file (notebook_env fs) = (Ok table, st) →
  ∀ t r, (t, r) ∈ table →
    in_degree r = count_target t (net_file st)
    ∧ out_degree r = count_source t (net_file st).
Proof.
  intros Hrun.
  assert (table = first_step st ∧ agree (net_file st) (first_step st))
    as [-> [Hdeg Hnd]].
  { unfold extract_network in Hrun.
    apply bind_Ok in Hrun as (lls & st0 & Hlevel0 & Hrun).
    apply bind_Ok in Hrun as ([] & st1 & Hlevel1 & Hrun).
    unfold get_first_step in Hrun. simplify_eq. split; [done|].
    revert Hlevel1. unfold level1.
    apply (keeps_ok_level1 site _ _ agree); [apply agree_same| |].
    { intros edges fs0 fs' s t ? _ ? _ _. by eapply agree_edge. }
    revert Hlevel0. unfold level0.
    intros ([] & st2 & Hreset & Hloop)%bind_Ok.
    unfold set_first_step in Hreset. simplify_eq. revert Hloop.
    apply (keeps_level0_loop site _ agree); [apply agree_same| |].
    { intros edges fs0 fs' s t ? _ ?. by eapply agree_edge. }
    split; [done|constructor]. }
  intros t r Hrow. apply (dict_elem_get _ _ _ Hnd) in Hrow.
  destruct (Hdeg t) as [<- <-]. unfold deg_in, deg_out. by rewrite Hrow.
Qed.

(** The second pass neither adds nor drops a title of the table, and
    a line it writes points to a title of the table. *)
Lemma level1_targets_recorded seeds_list links_to_seedlinks st0 u st1 :
  level1 site seeds_list links_to_seedlinks st0 = (Ok u, st1) →
  dict_keys (first_step st1) = dict_keys (first_step st0)
  ∧ ∃ edges1, net_file st1 = net_file st0 ++ edges1
      ∧ Forall (λ e, e.2 ∈ dict_keys (first_step st0)) edges1.
Proof.
  unfold level1.
  apply (keeps_ok_level1 site _ _
           (λ edges fs, dict_keys fs = dict_keys (first_step st0)
              ∧ ∃ edges1, edges = net_file st0 ++ edges1
                  ∧ Forall (λ e, e.2 ∈ dict_keys (first_step st0)) edges1)).
  - intros edges fs0 fs' [Hkeys Hedges] [_ Hsame]. split; [congruence|done].
  - intros edges fs0 fs' s t [Hkeys (edges1 & -> & Hall)] _ _ Ht Hsame.
    split; [congruence|]. exists (edges1 ++ [(s, t)]).
    split; [by rewrite app_assoc|]. apply Forall_app. split; [done|].
    constructor; [by rewrite <-Hkeys|constructor].
  - split; [done|]. exists []. split; [by rewrite app_nil_r|constructor].
Qed.
End extract_network_facts.

(** C10: the second pass looks up the record of an edge target without
    a guard.  A run that completes has found, for every line the second
    pass wrote, a record of the target made by the first pass; and with
    seeds A and S, where A links to B, B links to S and S links to
    nothing, S is a seed without a record after the first pass, the
    second pass writes the line from B to S, the lookup of S fails and
    the run ends in a [KeyError] instead of a table. *)
Theorem level1_assumes_records :
  (∀ site set_order seed_file fs lls st0 table st1,
     level0 site set_order (load_seed seed_file) (notebook_env fs) = (Ok lls, st0) →
     extract_network site set_order seed_file (notebook_env fs) = (Ok table, st1) →
     ∃ edges1, net_file st1 = net_file st0 ++ edges1
       ∧ Forall (λ e, is_Some (dict_get (first_step st0) e.2)) edges1)
  ∧ (∃ lls st0 st1,
       level0 (wiki_site wiki_lonely_seed) remove_dups (load_seed seeds_A_S)
         (notebook_env ∅) = (Ok lls, st0)
       ∧ extract_network (wiki_site wiki_lonely_seed) remove_dups seeds_A_S
           (notebook_env ∅) = (Raise KeyError, st1)
       ∧ "S" ∈ dict_keys (load_seed seeds_A_S)
       ∧ dict_get (first_step st0) "S" = None
       ∧ net_file st0 = [("A", "B")]
       ∧ net_file st1 = [("A", "B"); ("B", "S")]).
Proof.
  split.
  - intros site set_order seed_file fs lls st0 table st1 Hlevel0 Hrun.
    rewrite extract_network_passes, Hlevel0 in Hrun.
    destruct (level1 _ _ _ _) as [[[]|e] st2] eqn:Hlevel1; [|done].
    simplify_eq.
    apply level1_targets_recorded in Hlevel1 as (_ & edges1 & Hnet & Hall).
    exists edges1. split; [done|].
    eapply Forall_impl; [exact Hall|]. intros e He. by apply dict_get_is_Some.
  - eexists _, _, _. split_and!.
    + vm_compute. reflexivity.
    + vm_compute. reflexivity.
    + apply (bool_decide_unpack _). vm_compute. exact I.
    + vm_compute. reflexivity.
    + vm_compute. reflexivity.
    + vm_compute. reflexivity.
Qed.

(** ** The link files *)

Lemma universal_newlines_cons c s :
  Ascii.eqb c CR = false →
  universal_newlines (String c s) = String c (universal_newlines s).
Proof. intros Hc. simpl. by rewrite Hc. Qed.

Lemma splitlines_cons c s :
  Ascii.eqb c CR = false → is_linebreak c = false →
  splitlines (String c s) =
  match splitlines s with
  | [] => [String c EmptyString]
  | l :: ls => String c l :: ls
  end.
Proof. intros Hcr Hc. simpl. by rewrite Hcr, Hc. Qed.

Lemma splitlines_LF s : splitlines (String LF s) = "" :: splitlines s.
Proof. reflexivity. Qed.

Lemma splitlines_one_line (t rest : string) :
  one_line t = true →
  splitlines (universal_newlines (t +:+ NL +:+ rest))
  = t :: splitlines (universal_newlines rest).
Proof.
  induction t as [|c t IH]; intros Ht.
  - change ("" +:+ NL +:+ rest) with (String LF rest).
    by rewrite universal_newlines_cons, splitlines_LF.
  - simpl in Ht. apply andb_prop in Ht as [Hc Ht]. apply negb_true_iff in Hc.
    assert (Ascii.eqb c CR = false) as Hcr.
    { destruct (Ascii.eqb_spec c CR) as [->|]; [|done]. by vm_compute in Hc. }
    change (String c t +:+ NL +:+ rest) with (String c (t +:+ NL +:+ rest)).
    by rewrite universal_newlines_cons, splitlines_cons, (IH Ht).
Qed.

(** What is read back from a link file that holds one line per title. *)
Lemma splitlines_link_lines (l : list string) :
  Forall (λ t, one_line t = true) l →
  splitlines (universal_newlines (link_lines l)) = l.
Proof.
  induction 1 as [|t l Ht _ IH]; [done|].
  change (link_lines (t :: l)) with (t +:+ NL +:+ link_lines l).
  by rewrite splitlines_one_line, IH.
Qed.

Lemma str_app_assoc (s1 s2 s3 : string) : (s1 +:+ s2) +:+ s3 = s1 +:+ (s2 +:+ s3).
Proof.
  induction s1 as [|c s1 IH]; [done|].
  change (String c ((s1 +:+ s2) +:+ s3) = String c (s1 +:+ (s2 +:+ s3))).
  by rewrite IH.
Qed.

Lemma str_app_nil_r (s : string) : s +:+ "" = s.
Proof.
  induction s as [|c s IH]; [done|].
  change (String c (s +:+ "") = String c s). by rewrite IH.
Qed.

Lemma splitlines_nil (s : string) : splitlines (universal_newlines s) = [] → s = "".
Proof.
  destruct s as [|c s]; [done|]. simpl.
  destruct (Ascii.eqb c CR) eqn:Hcr.
  - destruct s as [|c' s]; [done|]. by destruct (Ascii.eqb c' LF).
  - simpl. rewrite Hcr. destruct (is_linebreak c); [done|].
    by destruct (splitlines (universal_newlines s)).
Qed.

(** A title whose link file is missing or empty is asked from the
    service; the link files stay as they are. *)
Lemma get_outlinks_new site title st outlinks st1 :
  get_outlinks site title st = (Ok (true, outlinks), st1) →
  default "" (files st !! articles_file title) = ""
  ∧ files st1 = files st.
Proof.
  intros Hrun. split.
  - unfold get_outlinks in Hrun.
    apply bind_Ok in Hrun as (lines & st0 & Hread & Hrun).
    unfold read_lines in Hread.
    destruct (files st !! articles_file title) as [content|]; [|done].
    simplify_eq. simpl.
    destruct (splitlines (universal_newlines content)) eqn:Hlines;
      [by apply splitlines_nil|].
    unfold ret in Hrun. by simplify_eq.
  - revert Hrun. by apply (keeps_get_outlinks_env (λ fs _ _, fs = files st)).
Qed.

Section cache_level0.
Variable site : site_t.
Variable seeds_list : dict string Z.

Lemma level0_targets_file seed outlinks targets st content u st' :
  files st !! articles_file seed = Some content →
  for_each targets (level0_target seeds_list seed true outlinks) st = (Ok u, st') →
  files st' !! articles_file seed
  = Some (content +:+ link_lines (filter (λ t, seed ≠ t) targets)).
Proof.
  revert st content. induction targets as [|target targets IH]; intros st content Hfile.
  - unfold for_each, foldM, ret. intros ?. simplify_eq. simpl.
    by rewrite str_app_nil_r.
  - unfold for_each. simpl.
    fold (for_each targets (level0_target seeds_list seed true outlinks)).
    intros ([] & st1 & Hstep & Hrest)%bind_Ok.
    rewrite level0_target_run in Hstep. simplify_eq.
    rewrite filter_cons. destruct (decide (seed = target)) as [Heq|Hne].
    + rewrite decide_False by auto. by apply (IH _ _ Hfile).
    + rewrite decide_True by done.
      eapply IH in Hrest; [|simpl; apply lookup_insert_eq].
      rewrite Hrest, Hfile. simpl. by rewrite !str_app_assoc.
Qed.

(** What the first pass leaves in the link file of a seed it had to
    ask the service for: the outlinks other than the seed itself. *)
Lemma level0_seed_stores lls seed st outlinks st1 lls' st' :
  get_outlinks site seed st = (Ok (true, outlinks), st1) →
  level0_seed site seeds_list lls seed st = (Ok lls', st') →
  files st' !! articles_file seed
  = Some (link_lines (filter (λ t, seed ≠ t) outlinks)).
Proof.
  intros Hget Hrun. unfold level0_seed in Hrun.
  destruct (get_outlinks_new _ _ _ _ _ Hget) as [Hempty Hfiles].
  apply bind_Ok in Hrun as ([is_new outs] & st2 & Hget' & Hrun).
  rewrite Hget in Hget'. simplify_eq.
  apply bind_Ok in Hrun as ([] & st3 & Hopen & Hrun).
  apply bind_Ok in Hrun as ([] & st4 & Hloop & Hret).
  unfold ret in Hret. simplify_eq.
  apply (level0_targets_file _ _ _ _ "") in Hloop; [exact Hloop|].
  apply bind_Ok in Hopen as ([] & st5 & Hopen & Hwp).
  unfold open_append in Hopen. simplify_eq.
  assert (files st3 = files
    (Env (<[articles_file seed:=default "" (files st2 !! articles_file seed)]> (files st2))
         (requests st2) (net_file st2) (first_step st2))) as ->.
  { revert Hwp. unfold bind, get_first_step. simpl.
    destruct (dict_get (first_step st2) seed);
      unfold set_first_step, ret; intros ?; by simplify_eq. }
  simpl. rewrite lookup_insert_eq, Hfiles. by rewrite Hempty.
Qed.
End cache_level0.

Section cache_level1.
Variable site : site_t.
Variable seeds_list : dict string Z.
Variable links_to_seedlinks : list string.

Lemma files_level1_edges (H : gmap string string → Prop) title target :
  keeps (λ st, H (files st))
    (if dict_mem target seeds_list && bool_decide (target ≠ title) then
       let* _ := net_file_write title target in
       let* _ := update_record title incr_links_to_seed in
       let* _ := update_record title incr_out_degree in
       update_record target incr_in_degree
     else if bool_decide (target ∈ links_to_seedlinks)
             && bool_decide (target ≠ title) then
       let* _ := net_file_write title target in
       let* _ := update_record title incr_out_degree in
       update_record target incr_in_degree
     else ret tt).
Proof.
  destruct (_ && _); [|destruct (_ && _); [|apply keeps_ret]];
    (apply keeps_bind; [apply (files_net_file_write H)|intros _]);
    repeat (apply keeps_bind; [apply (files_update_record H)|intros _]);
    apply (files_update_record H).
Qed.

Lemma level1_target_file title target st r st' :
  level1_target seeds_list links_to_seedlinks title true target st = (r, st') →
  files st' = <[articles_file title :=
                  default "" (files st !! articles_file title)
                  +:+ (target +:+ NL)]> (files st).
Proof.
  unfold level1_target.
  intros [([] & st1 & Hwrite & Hrun)|(e & Hwrite & _)]%bind_inv;
    unfold file_write in Hwrite; simplify_eq.
  revert Hrun. by apply (files_level1_edges (λ fs, fs = _)).
Qed.

Lemma level1_targets_file title targets st content u st' :
  files st !! articles_file title = Some content →
  for_each targets (level1_target seeds_list links_to_seedlinks title true) st
  = (Ok u, st') →
  files st' !! articles_file title = Some (content +:+ link_lines targets).
Proof.
  revert st content. induction targets as [|target targets IH]; intros st content Hfile.
  - unfold for_each, foldM, ret. intros ?. simplify_eq. simpl.
    by rewrite str_app_nil_r.
  - unfold for_each. simpl.
    fold (for_each targets (level1_target seeds_list links_to_seedlinks title true)).
    intros ([] & st1 & Hstep%level1_target_file & Hrest)%bind_Ok.
    eapply IH in Hrest; [|rewrite Hstep; apply lookup_insert_eq].
    rewrite Hrest, Hfile. simpl. by rewrite !str_app_assoc.
Qed.

(** What the second pass leaves in the link file of a title it had to
    ask the service for: all its outlinks. *)
Lemma level1_title_stores title st outlinks st1 u st' :
  get_outlinks site title st = (Ok (true, outlinks), st1) →
  level1_title site seeds_list links_to_seedlinks title st = (Ok u, st') →
  files st' !! articles_file title = Some (link_lines outlinks).
Proof.
  intros Hget Hrun. unfold level1_title in Hrun.
  apply bind_Ok in Hrun as ([is_new outs] & st2 & Hget' & Hrun).
  rewrite Hget in Hget'. simplify_eq.
  apply bind_Ok in Hrun as ([] & st3 & Hopen & Hloop).
  apply (level1_targets_file _ _ _ "") in Hloop; [exact Hloop|].
  apply bind_Ok in Hopen as ([] & st4 & Hopen & Hwp).
  unfold open_write in Hopen. simplify_eq.
  apply (files_update_record (λ fs, fs !! articles_file title = Some "")) in Hwp;
    [done|]. simpl. apply lookup_insert_eq.
Qed.
End cache_level1.

(** The two passes store the outlinks of a title differently.  After
    the second pass a fresh load of the link file returns the list the
    service resolved; after the first pass it returns that list without
    the seed itself. *)
Lemma level1_cache_roundtrip site seeds_list links_to_seedlinks title st outlinks st1 u st' :
  get_outlinks site title st = (Ok (true, outlinks), st1) →
  level1_title site seeds_list links_to_seedlinks title st = (Ok u, st') →
  Forall (λ t, one_line t = true) outlinks →
  read_lines (articles_file title) st' = (Ok outlinks, st').
Proof.
  intros Hget Hrun Hlines. unfold read_lines.
  rewrite (level1_title_stores _ _ _ _ _ _ _ _ _ Hget Hrun).
  by rewrite splitlines_link_lines.
Qed.

Lemma level0_cache_drops_seed site seeds_list lls seed st outlinks st1 lls' st' :
  get_outlinks site seed st = (Ok (true, outlinks), st1) →
  level0_seed site seeds_list lls seed st = (Ok lls', st') →
  Forall (λ t, one_line t = true) outlinks →
  read_lines (articles_file seed) st' = (Ok (filter (λ t, seed ≠ t) outlinks), st').
Proof.
  intros Hget Hrun Hlines. unfold read_lines.
  rewrite (level0_seed_stores _ _ _ _ _ _ _ _ _ Hget Hrun).
  rewrite splitlines_link_lines; [done|].
  apply Forall_forall. intros t [_ Ht]%list_elem_of_filter.
  by apply (proj1 (Forall_forall _ _) Hlines).
Qed.

(** C8 fails on the first pass: the seed A resolves to the outlinks A
    and B, the crawl writes only B to the link file of A, and a fresh
    process loads the list B from it; its degree table then gives A
    an [out_WP] of 1 where the first run gave 2. *)
Theorem cache_drops_self_link :
  (get_outlinks (wiki_site wiki_self_link) "A" (notebook_env ∅)).1
  = Ok (true, ["A"; "B"])
  ∧ files run_self_link.2 !! articles_file "A" = Some (link_lines ["B"])
  ∧ (get_outlinks (wiki_site wiki_self_link) "A"
       (notebook_env (files run_self_link.2))).1
    = Ok (false, ["B"])
  ∧ out_WP <$> dict_get (first_step run_self_link.2) "A" = Some 2
  ∧ out_WP <$> dict_get (first_step rerun_self_link.2) "A" = Some 1.
Proof. split_and!; vm_compute; reflexivity. Qed.

(** C6 fails on missing pages: asked for two titles that do not exist,
    the service returns both as missing, the first under the id -1 and
    the second under -2; [check_redirects] drops the first and keeps
    the second in the resolved map.  So does [parse_text], and a page
    whose text names three missing titles ends up with the third one as
    an outlink. *)
Theorem check_redirects_keeps_missing :
  wiki_site wiki_talk [] (redirects_params ["Nope1"; "Nope2"])
  = Some (Query None
            (Some [(-1, Page (Some 0) (Some "Nope1") None);
                   (-2, Page (Some 0) (Some "Nope2") None)]))
  ∧ (check_redirects (wiki_site wiki_talk) ["Nope1"; "Nope2"] []).1
    = Ok ([], [("Nope2", -2)])
  ∧ (parse_text (wiki_site wiki_red_links) "[[N1]] [[N2]] [[N3]]" []).1
    = Ok [("N2", 1); ("N3", 1)]
  ∧ (get_outlinks (wiki_site wiki_red_links) "A" (notebook_env ∅)).1
    = Ok (true, ["N3"])
  ∧ dict_get wiki_red_links "N3" = None.
Proof. split_and!; vm_compute; reflexivity. Qed.

(** ** The claims that fail on the code *)

(** C4 as stated fails: on a text that names A twice and a talk page
    once, the raw candidates are A, A and Talk:B, but [parse_text]
    returns the single key A. *)
Lemma parse_text_not_raw :
  ¬ (∀ site content log links log',
       parse_text site content log = (Ok links, log') →
       dict_keys links = re_findall linkP content).
Proof.
  intros Hraw.
  specialize (Hraw (wiki_site wiki_talk) "[[A]] [[A]] [[Talk:B]]" []
                [("A", 1)] [parse_params ["A"; "A"; "Talk:B"]] eq_refl).
  vm_compute in Hraw. discriminate.
Qed.

(** C7 as stated fails: a title of two spaces is made of whitespace
    only, and it is sent to the service. *)
Lemma whitespace_title_requested :
  ¬ (∀ site title log,
       whitespace_only title = true →
       get_outlinks_from_api site title log = (Ok (-1, []), log)).
Proof.
  intros Hblank.
  specialize (Hblank (wiki_site wiki_talk) "  " [] eq_refl).
  vm_compute in Hblank. discriminate.
Qed.

(** ** The theorems at work on the small wikis *)

(** The link pattern on wikitext: a plain link, an alias, a namespace
    prefix, a section anchor (no match), a subpage and trailing blanks. *)
Example linkP_findall :
  re_findall linkP
    "[[A]] x [[A|b]] [[Talk:B]] [[C#sec]] [[D/sub|x]] [[E  ]] [[F G]]"
  = ["A"; "A"; "Talk:B"; "D"; "E"; "F G"].
Proof. vm_compute. reflexivity. Qed.

(** A seed file with a comment, a title with a space, an empty line and
    the same title again. *)
Example load_seed_lines :
  load_seed ("# seeds" +:+ NL +:+ "A b" +:+ NL +:+ NL +:+ "A_b" +:+ NL +:+ "C")
  = [("A_b", 1); ("C", 1)].
Proof. vm_compute. reflexivity. Qed.

(** The crawl of the wiki of A, B, C and D writes the four edges and
    exports the degrees the specification expects. *)
Example run_abcd_result :
  run_abcd.1 = Ok [("A", Degree true 0 0 1 2 2);
                   ("B", Degree false 1 1 2 1 2);
                   ("C", Degree false 1 0 1 1 1)]
  ∧ net_file run_abcd.2 = [("A", "B"); ("A", "C"); ("B", "A"); ("C", "B")].
Proof. split; vm_compute; reflexivity. Qed.

Lemma degree_consistency_witness :
  in_degree (Degree false 1 1 2 1 2) = count_target "B" (net_file run_abcd.2)
  ∧ out_degree (Degree false 1 1 2 1 2) = count_source "B" (net_file run_abcd.2).
Proof.
  apply (degree_consistency (wiki_site wiki_abcd) remove_dups "A" ∅
           (first_step run_abcd.2) run_abcd.2).
  - vm_compute. reflexivity.
  - apply list_elem_of_In. vm_compute. right. left. reflexivity.
Defined.

Lemma frontier_closure_witness :
  ∃ edges1,
    net_file run_abcd.2 = [("A", "B"); ("A", "C")] ++ edges1
    ∧ Forall (λ e, e.2 ∈ dict_keys (load_seed "A")
                   ∨ e.2 ∈ frontier remove_dups (load_seed "A") [["B"; "C"]]) edges1.
Proof.
  refine (proj2 (frontier_closure (wiki_site wiki_abcd) remove_dups
                   (λ l, Permutation_refl (remove_dups l)) "A" ∅ [["B"; "C"]]
                   (level0 (wiki_site wiki_abcd) remove_dups (load_seed "A")
                      (notebook_env ∅)).2 _)).
  vm_compute. reflexivity.
Defined.

Lemma parse_text_resolved_witness :
  [parse_params ["A"; "A"; "Talk:B"]]
  = [] ++ (parse_params <$>
             iterate (split_param_list (re_findall linkP "[[A]] [[A]] [[Talk:B]]")))
  ∧ NoDup (dict_keys [("A", 1)])
  ∧ (∀ link, link ∈ dict_keys [("A", 1)] ↔
       ∃ pid pg,
         returned (wiki_site wiki_talk) []
           (parse_params <$>
              iterate (split_param_list
                         (re_findall linkP "[[A]] [[A]] [[Talk:B]]"))) pid pg
         ∧ pid ≠ -1 ∧ page_ns pg = Some 0 ∧ page_title pg = Some link)
  ∧ dict_keys [("A", 1)]
    = first_occurrences
        (concat (article_titles ∘ answer_pages
                   <$> answers (wiki_site wiki_talk) []
                         (parse_params <$>
                            iterate (split_param_list
                                       (re_findall linkP "[[A]] [[A]] [[Talk:B]]")))))
  ∧ Forall (λ entry, entry.2 = 1) [("A", 1)].
Proof.
  apply (parse_text_resolved (wiki_site wiki_talk) "[[A]] [[A]] [[Talk:B]]" []
           [("A", 1)] [parse_params ["A"; "A"; "Talk:B"]]).
  vm_compute. reflexivity.
Defined.

Lemma get_outlinks_from_api_blank_witness :
  get_outlinks_from_api (wiki_site wiki_talk) " " [] = (Ok (-1, []), []).
Proof.
  apply (get_outlinks_from_api_blank (wiki_site wiki_talk) " " []).
  right. reflexivity.
Defined.

Lemma level1_assumes_records_witness :
  ∃ edges1,
    net_file run_abcd.2 = [("A", "B"); ("A", "C")] ++ edges1
    ∧ Forall (λ e, is_Some (dict_get
                 (first_step (level0 (wiki_site wiki_abcd) remove_dups
                                (load_seed "A") (notebook_env ∅)).2) e.2)) edges1.
Proof.
  refine (proj1 level1_assumes_records (wiki_site wiki_abcd) remove_dups "A" ∅
            [["B"; "C"]]
            (level0 (wiki_site wiki_abcd) remove_dups (load_seed "A")
               (notebook_env ∅)).2
            (first_step run_abcd.2) run_abcd.2 _ _).
  - vm_compute. reflexivity.
  - vm_compute. reflexivity.
Defined.

(** * Further properties of the code *)

(** ** Batches *)

Section batch_shape.
Context {A : Type}.
Implicit Types alist : list A.

Lemma split_param_list_chunks alist :
  iterate (split_param_list alist) =
  (λ i, take chunk_len (drop (i * chunk_len) alist))
    <$> seq 0 ((length alist + (chunk_len - 1)) / chunk_len).
Proof.
  unfold split_param_list. destruct (length alist <? 1)%nat eqn:Hlen; simpl.
  - apply Nat.ltb_lt in Hlen. by destruct alist; [|simpl in Hlen; lia].
  - rewrite py_range_0, <-list_fmap_compose. apply list_fmap_ext.
    intros _ i _. simpl. unfold slice. f_equal. lia.
Qed.

(** X1: [split_param_list] returns as many batches as it takes to hold
    the input 50 at a time; batch number [i] holds the 50 titles from
    position [50 * i] on, no batch is empty, and every batch but the
    last holds exactly 50. *)
Theorem split_param_list_shape alist :
  length (iterate (split_param_list alist)) = ((length alist + 49) / 50)%nat
  ∧ ∀ i batch, iterate (split_param_list alist) !! i = Some batch →
      batch = take 50 (drop (i * 50) alist)
      ∧ batch ≠ []
      ∧ ((S i < length (iterate (split_param_list alist)))%nat →
         length batch = 50%nat).
Proof.
  rewrite split_param_list_chunks. unfold chunk_len.
  change (50 - 1)%nat with 49%nat.
  pose proof (Nat.div_mod_eq (length alist + 49) 50) as Hdiv.
  pose proof (Nat.mod_upper_bound (length alist + 49) 50) as Hmod.
  split; [by rewrite length_fmap, length_seq|].
  intros i batch Hi. rewrite length_fmap, length_seq.
  rewrite list_lookup_fmap in Hi.
  destruct (seq 0 _ !! i) as [j|] eqn:Hj; [|done]. simpl in Hi.
  apply lookup_seq in Hj as [-> Hlt]. simplify_eq.
  change (0 + i)%nat with i. split_and!; [done| |].
  - intros Hnil%(f_equal length). rewrite length_take, length_drop in Hnil.
    change (length (@nil A)) with 0%nat in Hnil. lia.
  - intros Hnext. rewrite length_take, length_drop. lia.
Qed.
End batch_shape.

Lemma split_param_list_shape_witness :
  [51; 52]%nat = take 50 (drop (1 * 50) (seq 1 52))
  ∧ [51; 52]%nat ≠ []
  ∧ ((2 < length (iterate (split_param_list (seq 1 52))))%nat →
     length [51; 52]%nat = 50%nat).
Proof.
  apply (proj2 (split_param_list_shape (seq 1 52)) 1%nat [51; 52]%nat).
  vm_compute. reflexivity.
Defined.

(** ** The requests the service layer sends *)

(** A loop whose rounds each append one request sends one request per
    element, in order. *)
Lemma foldM_log {A B} (g : A → params) (f : B → A → M (list params) B) l acc log acc' log' :
  (∀ acc x log acc' log', f acc x log = (Ok acc', log') → log' = log ++ [g x]) →
  foldM f acc l log = (Ok acc', log') → log' = log ++ (g <$> l).
Proof.
  intros Hf. revert acc log. induction l as [|x l IH]; simpl; intros acc log Hrun.
  - unfold ret in Hrun. simplify_eq. by rewrite app_nil_r.
  - apply bind_Ok in Hrun as (acc1 & log1 & Hx%Hf & Hrest%IH). subst.
    by rewrite <-app_assoc.
Qed.

Section request_logs.
Variable site : site_t.

Lemma parse_batch_log links title_list log links' log' :
  parse_batch site links title_list log = (Ok links', log') →
  log' = log ++ [parse_params title_list].
Proof.
  unfold parse_batch.
  intros (q & log1 & [_ ->]%request_query_Ok & Hrun)%bind_Ok.
  destruct (query_pages q) as [[|entry pages]|];
    [unfold ret in Hrun; by simplify_eq| |unfold ret in Hrun; by simplify_eq].
  revert Hrun. apply (foldM_state (λ st, st = _)); [|done].
  intros ????? _ -> Hstep. by apply parse_page_log in Hstep.
Qed.

(** X2: a call of [parse_text] that completes has sent one request per
    batch of 50 raw candidates, in the order of the batches, and
    nothing else. *)
Theorem parse_text_requests content log links log' :
  parse_text site content log = (Ok links, log') →
  log' = log ++ (parse_params <$>
                   iterate (split_param_list (re_findall linkP content))).
Proof. unfold parse_text. apply foldM_log. apply parse_batch_log. Qed.

Lemma re_match_linkP_closed {A} (s : string) g (k : string → option string → option A) :
  has_link_open s = false → re_match linkP s g k = None.
Proof.
  unfold linkP, re_seq, lit.
  destruct s as [|c [|c' s]]; [done| |]; intros Hs.
  - cbn -[Ascii.eqb]. by destruct (Ascii.eqb "[" c).
  - cbn -[Ascii.eqb] in Hs. apply orb_false_elim in Hs as [Hs _].
    rewrite (Ascii.eqb_sym c), (Ascii.eqb_sym c') in Hs. cbn -[Ascii.eqb].
    destruct (Ascii.eqb "[" c); [|done].
    by destruct (Ascii.eqb "[" c').
Qed.

Lemma has_link_open_tail c s : has_link_open (String c s) = false → has_link_open s = false.
Proof. cbn -[Ascii.eqb]. by intros [_ ?]%orb_false_elim. Qed.

Lemma re_findall_closed (s : string) skip :
  has_link_open s = false → re_findall_from linkP skip s = [].
Proof.
  revert skip. induction s as [|c s IH]; intros skip Hs; [done|].
  pose proof (has_link_open_tail _ _ Hs) as Hs'.
  destruct skip as [|n]; cbn [re_findall_from]; [|by apply IH].
  rewrite re_match_linkP_closed by done. by apply IH.
Qed.

(** X3: on a text without two opening brackets in a row [parse_text]
    finds no candidate, sends no request and returns the empty
    dictionary. *)
Theorem parse_text_no_link content log :
  has_link_open content = false →
  parse_text site content log = (Ok [], log).
Proof.
  intros Hclosed. unfold parse_text, re_findall.
  by rewrite re_findall_closed.
Qed.

Lemma check_page_log pages acc page log r log' :
  check_page pages acc page log = (r, log') → log' = log.
Proof.
  unfold check_page. case_bool_decide; [|unfold ret; intros ?; by simplify_eq].
  intros [(pg & log1 & [_ ->]%expect_Ok & Hrun)|(e & ?%expect_state & _)]%bind_inv;
    [|done].
  destruct (page_ns pg); [|unfold ret in Hrun; by simplify_eq].
  case_bool_decide; [|unfold ret in Hrun; by simplify_eq].
  apply bind_inv in Hrun
    as [(t & log2 & [_ ->]%expect_Ok & Hrun)|(e & ?%expect_state & _)]; [|done].
  unfold ret in Hrun. by simplify_eq.
Qed.

Lemma check_batch_log acc title_list log acc' log' :
  check_batch site acc title_list log = (Ok acc', log') →
  log' = log ++ [redirects_params title_list].
Proof.
  unfold check_batch.
  intros (q & log1 & [_ ->]%request_query_Ok & Hrun)%bind_Ok.
  apply bind_Ok in Hrun as (pages & log2 & [_ ->]%expect_Ok & Hrun).
  revert Hrun. apply (foldM_state (λ st, st = _)); [|done].
  intros ????? _ -> Hstep. by apply check_page_log in Hstep.
Qed.

(** X4: a call of [check_redirects] that completes has sent one request
    per batch of 50 titles, in the order of the batches, and nothing
    else; for the empty list it sends nothing and returns two empty
    dictionaries. *)
Theorem check_redirects_requests titles log :
  (∀ redirects links log',
     check_redirects site titles log = (Ok (redirects, links), log') →
     log' = log ++ (redirects_params <$> iterate (split_param_list titles)))
  ∧ check_redirects site [] log = (Ok ([], []), log).
Proof.
  split; [|done]. intros redirects links log'. unfold check_redirects.
  intros (acc & log1 & Hloop & Hret)%bind_Ok. unfold ret in Hret. simplify_eq.
  revert Hloop. apply foldM_log. apply check_batch_log.
Qed.
End request_logs.

(** ** The link pattern *)

Lemma re_match_StarLazy {A} p (s : string) g (k : string → option string → option A) :
  re_match (StarLazy p) s g k =
  match k s g with
  | Some x => Some x
  | None =>
      match s with
      | String c s' => if p c then re_match (StarLazy p) s' g k else None
      | EmptyString => None
      end
  end.
Proof. by destruct s. Qed.

Lemma re_match_StarGreedy {A} p (s : string) g (k : string → option string → option A) :
  re_match (StarGreedy p) s g k =
  match s with
  | String c s' =>
      if p c then
        match re_match (StarGreedy p) s' g k with
        | Some x => Some x
        | None => k s g
        end
      else k s g
  | EmptyString => k s g
  end.
Proof. by destruct s. Qed.

(** A lazy star hands the rest of the pattern a suffix of the text, cut
    after characters of its class. *)
Lemma re_match_StarLazy_Some {A} p (s : string) g
    (k : string → option string → option A) x :
  re_match (StarLazy p) s g k = Some x →
  ∃ t s', s = t +:+ s' ∧ str_forall p t = true ∧ k s' g = Some x.
Proof.
  induction s as [|c s IH]; rewrite re_match_StarLazy.
  - destruct (k "" g) eqn:Hk; [|done]. intros ?. simplify_eq. by exists "", "".
  - destruct (k (String c s) g) eqn:Hk.
    { intros ?. simplify_eq. by exists "", (String c s). }
    destruct (p c) eqn:Hc; [|done].
    intros (t & s' & -> & Ht & Hx)%IH. exists (String c t), s'.
    split_and!; [done| |done]. cbn. by rewrite Hc.
Qed.

(** A pattern without a group leaves the captured text as it is. *)
Lemma re_match_group_free {A} r (s : string) g
    (k : string → option string → option A) x :
  group_free r = true → re_match r s g k = Some x → ∃ s', k s' g = Some x.
Proof.
  revert s k. induction r as [|p|r1 IH1 r2 IH2|r1 IH1|p|p|r1 IH1];
    intros s k Hfree; cbn [re_match].
  - eauto.
  - destruct s as [|c s]; [done|]. destruct (p c); [eauto|done].
  - cbn in Hfree. apply andb_prop in Hfree as [Hfree1 Hfree2].
    intros [s1 Hr2]%IH1; [|done]. by apply IH2 in Hr2.
  - destruct (re_match r1 s g k) eqn:Hr1.
    + intros ?. simplify_eq. by apply IH1 in Hr1.
    + eauto.
  - fold (re_match (StarGreedy p) s g k).
    induction s as [|c s IHs]; rewrite re_match_StarGreedy; [eauto|].
    destruct (p c); [|eauto].
    destruct (re_match (StarGreedy p) s g k) eqn:Hs; [|eauto].
    intros ?. simplify_eq. by apply IHs.
  - fold (re_match (StarLazy p) s g k).
    intros (t & s' & _ & _ & Hk)%re_match_StarLazy_Some. eauto.
  - done.
Qed.

Lemma str_length_app (u s : string) :
  String.length (u +:+ s) = (String.length u + String.length s)%nat.
Proof.
  induction u as [|c u IH]; [done|].
  change (S (String.length (u +:+ s)) = S (String.length u + String.length s)).
  by rewrite IH.
Qed.

Lemma str_take_app (t s : string) :
  str_take (String.length (t +:+ s) - String.length s) (t +:+ s) = t.
Proof.
  rewrite str_length_app.
  replace (String.length t + String.length s - String.length s)%nat
    with (String.length t) by lia.
  induction t as [|c t IH]; [by destruct s|].
  change (String c (str_take (String.length t) (t +:+ s)) = String c t).
  by rewrite IH.
Qed.

Lemma re_match_Chr_Some {A} p (s : string) g
    (k : string → option string → option A) x :
  re_match (Chr p) s g k = Some x →
  ∃ c s', s = String c s' ∧ p c = true ∧ k s' g = Some x.
Proof.
  destruct s as [|c s]; [done|]. cbn [re_match].
  destruct (p c) eqn:Hc; [|done]. eauto.
Qed.

Lemma re_match_Seq {A} r1 r2 (s : string) g
    (k : string → option string → option A) :
  re_match (Seq r1 r2) s g k = re_match r1 s g (λ s' g', re_match r2 s' g' k).
Proof. reflexivity. Qed.

Lemma re_match_Group {A} r1 (s : string) g
    (k : string → option string → option A) :
  re_match (Group r1) s g k =
  re_match r1 s g
    (λ s' _, k s' (Some (str_take (String.length s - String.length s') s))).
Proof. reflexivity. Qed.

(** What a match of the link pattern captures. *)
Lemma linkP_capture (s rest : string) g :
  re_match linkP s None (λ rest g, Some (rest, g)) = Some (rest, g) →
  ∃ t, g = Some t ∧ t ≠ "" ∧ str_forall title_char t = true.
Proof.
  unfold linkP.
  match goal with
  | |- re_match (re_seq (?a :: ?b :: Group (Seq (Chr ?p) ?star) :: ?tl)) _ _ _ = _ → _ =>
      change (re_seq (a :: b :: Group (Seq (Chr p) star) :: tl))
        with (Seq a (Seq b (Seq (Group (Seq (Chr p) star)) (re_seq tl))));
      assert (group_free (re_seq tl) = true) as Hfree by reflexivity;
      generalize dependent (re_seq tl)
  end.
  intros tail Hfree Hmatch. unfold lit in Hmatch.
  rewrite re_match_Seq in Hmatch.
  apply re_match_Chr_Some in Hmatch as (c0 & s0 & -> & _ & Hmatch).
  rewrite re_match_Seq in Hmatch.
  apply re_match_Chr_Some in Hmatch as (c1 & s1 & -> & _ & Hmatch).
  rewrite re_match_Seq, re_match_Group, re_match_Seq in Hmatch.
  apply re_match_Chr_Some in Hmatch as (c & s2 & -> & Hc & Hmatch).
  apply re_match_StarLazy_Some in Hmatch as (t & s' & -> & Ht & Hmatch).
  change (String c (t +:+ s')) with (String c t +:+ s') in Hmatch.
  rewrite str_take_app in Hmatch.
  apply re_match_group_free in Hmatch as [s3 Hmatch]; [|done].
  simplify_eq. exists (String c t). split_and!; [done|done|].
  cbn [str_forall]. by rewrite Hc.
Qed.

(** X5: a raw candidate that the link pattern finds in a text is not
    empty, and none of its characters is a bracket, a brace, a circumflex,
    a hash or a slash. *)
Theorem linkP_candidates content candidate :
  candidate ∈ re_findall linkP content →
  candidate ≠ "" ∧ str_forall title_char candidate = true.
Proof.
  unfold re_findall. generalize 0%nat as skip.
  induction content as [|c s IH]; intros skip; cbn [re_findall_from].
  - by intros ?%elem_of_nil.
  - destruct skip as [|n]; [|apply IH].
    destruct (re_match linkP (String c s) None _) as [[rest g]|] eqn:Hmatch;
      [|apply IH].
    apply linkP_capture in Hmatch as (t & -> & Hne & Ht).
    intros [->|Hin]%elem_of_cons; [done|]. by eapply IH.
Qed.

(** ** What the service layer returns *)

Lemma normalize_no_space (t : string) : no_space (normalize t) = true.
Proof.
  induction t as [|c t IH]; [done|].
  change (normalize (String c t))
    with (String (if Ascii.eqb c " " then "_"%char else c) (normalize t)).
  cbn [no_space]. rewrite IH, andb_true_r.
  destruct (Ascii.eqb c " ") eqn:Hc; [done|]. by rewrite Hc.
Qed.

Section service_results.
Variable site : site_t.

Lemma check_page_inv (P : dict string Z → Prop) pages acc page log acc' log' :
  (∀ links title pid, P links → P (dict_set (normalize title) pid links)) →
  P (res_links acc) →
  check_page pages acc page log = (Ok acc', log') → P (res_links acc').
Proof.
  intros Hset Hacc. unfold check_page.
  case_bool_decide as Hpage; [|unfold ret; intros ?; by simplify_eq].
  intros (pg & log1 & [Hpg ->]%expect_Ok & Hrun)%bind_Ok.
  destruct (page_ns pg) as [ns|] eqn:Hns; [|unfold ret in Hrun; by simplify_eq].
  case_bool_decide as Hzero; [|unfold ret in Hrun; by simplify_eq].
  apply bind_Ok in Hrun as (title & log2 & [Htitle ->]%expect_Ok & Hrun).
  unfold ret in Hrun. simplify_eq. simpl. by apply Hset.
Qed.

Lemma check_batch_inv (P : dict string Z → Prop) acc title_list log acc' log' :
  (∀ links title pid, P links → P (dict_set (normalize title) pid links)) →
  P (res_links acc) →
  check_batch site acc title_list log = (Ok acc', log') → P (res_links acc').
Proof.
  intros Hset Hacc. unfold check_batch.
  intros (q & log1 & _ & Hrun)%bind_Ok.
  apply bind_Ok in Hrun as (pages & log2 & _ & Hrun).
  revert Hrun. apply (foldM_Ok (λ acc _, P (res_links acc))); [|exact Hacc].
  intros acc1 page log3 acc2 log4 _. by apply check_page_inv.
Qed.

(** The loop of [check_redirects] keeps the titles of its map distinct
    and free of spaces. *)
Lemma check_loop_keys title_lists acc log acc' log' :
  NoDup (dict_keys (res_links acc))
  ∧ Forall (λ link, no_space link = true) (dict_keys (res_links acc)) →
  foldM (check_batch site) acc title_lists log = (Ok acc', log') →
  NoDup (dict_keys (res_links acc'))
  ∧ Forall (λ link, no_space link = true) (dict_keys (res_links acc')).
Proof.
  set (P := λ links : dict string Z,
    NoDup (dict_keys links) ∧ Forall (λ link, no_space link = true) (dict_keys links)).
  intros Hacc. apply (foldM_Ok (λ acc _, P (res_links acc))); [|exact Hacc].
  intros acc1 title_list log2 acc2 log3 _. apply (check_batch_inv P).
  intros links title pid [Hnd Hall]. split; [by apply dict_set_NoDup|].
  rewrite dict_set_keys. case_decide; [done|].
  apply Forall_app. split; [done|].
  constructor; [apply normalize_no_space|constructor].
Qed.

(** X6: the map of resolved titles that [check_redirects] returns has
    each title once, and no title in it holds a space. *)
Theorem check_redirects_keys titles log redirects links log' :
  check_redirects site titles log = (Ok (redirects, links), log') →
  NoDup (dict_keys links) ∧ Forall (λ link, no_space link = true) (dict_keys links).
Proof.
  unfold check_redirects.
  intros (acc & log1 & Hloop & Hret)%bind_Ok. unfold ret in Hret. simplify_eq.
  revert Hloop. apply check_loop_keys. split; constructor.
Qed.

(** X7: [get_outlinks_from_api] returns either the not-found page id -1
    with no outlinks, or a page id of at least 1 with outlinks that hold
    no space. *)
Theorem get_outlinks_from_api_result title log p_id outlinks log' :
  get_outlinks_from_api site title log = (Ok (p_id, outlinks), log') →
  (p_id = -1 ∧ outlinks = [])
  ∨ (1 ≤ p_id ∧ Forall (λ target, no_space target = true) outlinks).
Proof.
  unfold get_outlinks_from_api.
  case_bool_decide; [unfold ret; intros ?; simplify_eq; by left|].
  intros (q & log1 & _ & Hrun)%bind_Ok.
  apply bind_Ok in Hrun as (pages & log2 & _ & Hrun).
  apply bind_Ok in Hrun as (first & log3 & _ & Hrun).
  case_bool_decide as Hfirst; [unfold ret in Hrun; simplify_eq; by left|].
  repeat (apply bind_Ok in Hrun as (? & ? & _ & Hrun)).
  unfold ret in Hrun. simplify_eq. right. split; [lia|].
  apply Forall_fmap, Forall_forall. intros link _. apply normalize_no_space.
Qed.

(** X8: when the service answers the content request for a title with
    a first page id below 1, [get_outlinks_from_api] returns the
    not-found page id and no outlinks after that single request. *)
Theorem get_outlinks_from_api_not_found title log q pages first :
  ¬ (title = "" ∨ title = " ") →
  site log (content_params title) = Some q →
  query_pages q = Some pages →
  head (dict_keys pages) = Some first →
  first < 1 →
  get_outlinks_from_api site title log
  = (Ok (-1, []), log ++ [content_params title]).
Proof.
  intros Hblank Hq Hpages Hfirst Hlt. unfold get_outlinks_from_api.
  rewrite bool_decide_eq_false_2 by done.
  unfold bind, request_query. rewrite Hq, Hpages. simpl. rewrite Hfirst. simpl.
  by rewrite bool_decide_eq_true_2.
Qed.

End service_results.

(** ** [get_outlinks] and the link files *)

Section get_outlinks_facts.
Variable site : site_t.

Lemma read_lines_cached title st :
  read_lines (articles_file title) st = (Ok (cached (files st) title), st).
Proof. unfold read_lines, cached. by destruct (files st !! articles_file title). Qed.

(** X9: when the link file of a title holds at least one line,
    [get_outlinks] returns these lines as the outlinks, marks the page
    as not new, sends no request and changes nothing. *)
Theorem get_outlinks_hit title st :
  cached (files st) title ≠ [] →
  get_outlinks site title st = (Ok (false, cached (files st) title), st).
Proof.
  intros Hhit. unfold get_outlinks, bind. rewrite read_lines_cached.
  by destruct (cached (files st) title).
Qed.

(** X10: two titles that differ only in slashes against dots share one
    link file: once the file of one holds lines, [get_outlinks] answers
    the other with the same lines, without asking the service. *)
Theorem get_outlinks_shared_file title1 title2 st :
  str_replace "/" "." title1 = str_replace "/" "." title2 →
  cached (files st) title1 ≠ [] →
  get_outlinks site title2 st = (Ok (false, cached (files st) title1), st).
Proof.
  intros Hname Hhit.
  assert (cached (files st) title2 = cached (files st) title1) as Heq
    by (unfold cached, articles_file; by rewrite Hname).
  unfold get_outlinks, bind. rewrite read_lines_cached, Heq.
  by destruct (cached (files st) title1).
Qed.

Lemma api_requests {A} (c : M (list params) A) st r st' :
  api c st = (r, st') →
  c (requests st) = (r, requests st')
  ∧ files st' = files st ∧ net_file st' = net_file st
  ∧ first_step st' = first_step st.
Proof.
  unfold api. destruct (c (requests st)) as [r1 log]. intros ?. by simplify_eq.
Qed.

Lemma check_redirects_log titles log r log' :
  check_redirects site titles log = (r, log') → ∃ more, log' = log ++ more.
Proof.
  unfold check_redirects.
  assert (∀ acc r1 log1,
    foldM (check_batch site) acc (iterate (split_param_list titles)) log = (r1, log1) →
    ∃ more, log1 = log ++ more) as Hloop.
  { intros acc r1 log1.
    apply (foldM_state (λ st, ∃ more, st = log ++ more));
      [|exists []; by rewrite app_nil_r].
    intros acc1 title_list log2 r2 log3 _ [more ->]. unfold check_batch.
    intros [(q & log4 & [_ ->]%request_query_Ok & Hrun)
           |(e & ->%request_query_log & _)]%bind_inv;
      [|eexists; by rewrite <-app_assoc].
    apply bind_inv in Hrun
      as [(pages & log5 & [_ ->]%expect_Ok & Hrun)|(e & ->%expect_state & _)];
      [|eexists; by rewrite <-app_assoc].
    assert (log3 = (log ++ more) ++ [redirects_params title_list]) as ->.
    { revert Hrun. apply (foldM_state (λ st, st = _)); [|done].
      intros ????? _ -> Hstep. by apply check_page_log in Hstep. }
    eexists. by rewrite <-app_assoc. }
  intros [(acc & log1 & Hrun & Hret)|(e & Hrun & _)]%bind_inv.
  - unfold ret in Hret. simplify_eq. by eapply Hloop.
  - by eapply Hloop.
Qed.

(** X11: however it ends, [get_outlinks] leaves the link files, the
    edge stream and the degree table as they are, and only adds to the
    requests sent. *)
Theorem get_outlinks_frame title st r st' :
  get_outlinks site title st = (r, st') →
  files st' = files st ∧ net_file st' = net_file st
  ∧ first_step st' = first_step st
  ∧ ∃ more, requests st' = requests st ++ more.
Proof.
  intros Hrun. split_and!.
  - revert Hrun. by apply (keeps_get_outlinks_env (λ fs _ _, fs = files st)).
  - revert Hrun. by apply (keeps_get_outlinks_env (λ _ edges _, edges = net_file st)).
  - revert Hrun. by apply (keeps_get_outlinks_env (λ _ _ fs, fs = first_step st)).
  - unfold get_outlinks, bind in Hrun. rewrite read_lines_cached in Hrun.
    destruct (cached (files st) title);
      [|unfold ret in Hrun; simplify_eq; exists []; by rewrite app_nil_r].
    destruct (api (get_outlinks_from_api site title) st) as [[[p outs]|e] st1] eqn:Hapi;
      apply api_requests in Hapi as (Hapi & _).
    + assert (∃ more, requests st1 = requests st ++ more) as [more1 Hst1].
      { destruct (decide (title = "" ∨ title = " ")) as [Hblank|Hblank].
        - unfold get_outlinks_from_api in Hapi.
          rewrite bool_decide_eq_true_2 in Hapi by done.
          unfold ret in Hapi. simplify_eq. exists []. by rewrite app_nil_r.
        - apply get_outlinks_from_api_asks in Hapi as [more ->]; [|done]. eauto. }
      destruct (api (check_redirects site outs) st1) as [[[reds links]|e] st2] eqn:Hchk;
        apply api_requests in Hchk as (Hchk & _);
        apply check_redirects_log in Hchk as [more2 Hst2];
        unfold ret in Hrun; simplify_eq;
        exists (more1 ++ more2); by rewrite Hst2, Hst1, app_assoc.
    + simplify_eq. destruct (decide (title = "" ∨ title = " ")) as [Hblank|Hblank].
      * unfold get_outlinks_from_api in Hapi.
        by rewrite bool_decide_eq_true_2 in Hapi by done.
      * apply get_outlinks_from_api_asks in Hapi as [more ->]; [|done]. eauto.
Qed.

(** X12: the outlinks that [get_outlinks] brings from the service hold
    each title once, and no title among them holds a space. *)
Theorem get_outlinks_new_outlinks title st outlinks st' :
  get_outlinks site title st = (Ok (true, outlinks), st') →
  NoDup outlinks ∧ Forall (λ target, no_space target = true) outlinks.
Proof.
  unfold get_outlinks.
  intros (lines & st0 & _ & Hrun)%bind_Ok.
  destruct lines; [|unfold ret in Hrun; by simplify_eq].
  apply bind_Ok in Hrun as ([p outs] & st1 & _ & Hrun).
  apply bind_Ok in Hrun as ([reds links] & st2 & Hchk & Hrun).
  unfold ret in Hrun. simplify_eq.
  apply api_requests in Hchk as (Hchk & _).
  unfold check_redirects in Hchk.
  apply bind_Ok in Hchk as (acc & log1 & Hloop & Hret).
  unfold ret in Hret. simplify_eq.
  revert Hloop. apply check_loop_keys. split; constructor.
Qed.

(** X13: for a title without a NUL character, so that the name of its
    link file can be opened: when the link file is missing or without
    lines and the service fails on the content request for the title,
    [get_outlinks] ends in [RequestError]; the link files, the edge
    stream and the degree table are as before. *)
Theorem get_outlinks_failure title st :
  no_nul title = true →
  cached (files st) title = [] →
  ¬ (title = "" ∨ title = " ") →
  site (requests st) (content_params title) = None →
  get_outlinks site title st
  = (Raise RequestError,
     Env (files st) (requests st ++ [content_params title])
         (net_file st) (first_step st)).
Proof.
  intros _ Hmiss Hblank Hfail. unfold get_outlinks, bind.
  rewrite read_lines_cached, Hmiss. unfold api, get_outlinks_from_api.
  rewrite bool_decide_eq_false_2 by done.
  unfold bind, request_query. by rewrite Hfail.
Qed.
End get_outlinks_facts.

(** ** The first pass, seed by seed *)

Section level0_runs.
Variable site : site_t.
Variable seeds_list : dict string Z.

Lemma level0_targets_run seed is_new_page outlinks targets st :
  ∃ fs',
    for_each targets (level0_target seeds_list seed is_new_page outlinks) st
    = (Ok tt,
       Env fs' (requests st) (net_file st ++ level0_edges seed targets)
           (level0_table seeds_list seed outlinks targets (first_step st))).
Proof.
  revert st. induction targets as [|target targets IH]; intros st.
  - exists (files st). unfold level0_edges. simpl. rewrite app_nil_r. by destruct st.
  - unfold for_each. cbn [foldM].
    fold (for_each targets (level0_target seeds_list seed is_new_page outlinks)).
    unfold bind. rewrite level0_target_run. cbv beta iota.
    unfold level0_edges, level0_table. rewrite filter_cons. cbn [fold_left].
    destruct (decide (seed = target)) as [Heq|Hne].
    + rewrite decide_False by auto. apply IH.
    + rewrite decide_True by done. unfold for_each in IH.
      match goal with |- context [foldM _ _ _ ?st1] => destruct (IH st1) as [fs' ->] end.
      exists fs'. cbn. by rewrite <-app_assoc.
Qed.

(** One round of the loop over the seeds. *)
Lemma level0_seed_Ok lls seed st lls' st' :
  level0_seed site seeds_list lls seed st = (Ok lls', st') →
  ∃ is_new_page outlinks st1,
    get_outlinks site seed st = (Ok (is_new_page, outlinks), st1)
    ∧ lls' = lls ++ [outlinks]
    ∧ net_file st' = net_file st ++ level0_edges seed outlinks
    ∧ first_step st' =
        level0_table seeds_list seed outlinks outlinks
          (if is_new_page
           then dict_update seed (set_out_WP (len outlinks)) (first_step st)
           else first_step st).
Proof.
  unfold level0_seed.
  intros ([is_new_page outlinks] & st1 & Hget & Hrun)%bind_Ok.
  exists is_new_page, outlinks, st1. split; [done|].
  pose proof (keeps_get_outlinks_env
    (λ _ edges fs, edges = net_file st ∧ fs = first_step st) site seed
    _ _ _ (conj eq_refl eq_refl) Hget) as [Hnet1 Hfs1].
  apply bind_Ok in Hrun as ([] & st2 & Hopen & Hrun).
  apply bind_Ok in Hrun as ([] & st3 & Hloop & Hret).
  unfold ret in Hret. simplify_eq.
  destruct (level0_targets_run seed is_new_page outlinks outlinks st2) as [fs' Hrun].
  rewrite Hrun in Hloop. simplify_eq. simpl.
  assert (net_file st2 = net_file st1
          ∧ first_step st2 = if is_new_page
                             then dict_update seed (set_out_WP (len outlinks)) (first_step st1)
                             else first_step st1) as [-> ->].
  { destruct is_new_page; [|unfold ret in Hopen; by simplify_eq].
    apply bind_Ok in Hopen as ([] & st4 & Hopen & Hwp).
    unfold open_append in Hopen. simplify_eq.
    unfold bind, get_first_step, dict_update in *. simpl in *.
    destruct (dict_get (first_step st1) seed);
      unfold set_first_step, ret in Hwp; by simplify_eq. }
  by rewrite Hnet1, Hfs1.
Qed.
End level0_runs.

(** ** The second pass, title by title *)

Lemma dict_update_keys k f fs : dict_keys (dict_update k f fs) = dict_keys fs.
Proof.
  unfold dict_update. destruct (dict_get fs k) as [r|] eqn:Hr; [|done].
  apply dict_set_keys_present, dict_get_is_Some. by rewrite Hr.
Qed.

Lemma dict_get_update k f fs x :
  dict_get (dict_update k f fs) x =
  if decide (k = x) then f <$> dict_get fs x else dict_get fs x.
Proof.
  unfold dict_update. destruct (dict_get fs k) as [r|] eqn:Hr.
  - rewrite dict_get_set. case_decide; subst; [by rewrite Hr|done].
  - case_decide; subst; [by rewrite Hr|done].
Qed.

Lemma update_record_run k f st u st' :
  update_record k f st = (Ok u, st') →
  k ∈ dict_keys (first_step st)
  ∧ st' = Env (files st) (requests st) (net_file st)
              (dict_update k f (first_step st)).
Proof.
  intros (r & Hr & ->)%update_record_Ok. unfold dict_update. rewrite Hr.
  split; [|done]. apply dict_get_is_Some. by rewrite Hr.
Qed.

Section level1_runs.
Variable site : site_t.
Variable seeds_list : dict string Z.
Variable links_to_seedlinks : list string.

Lemma level1_writes_branches title target :
  level1_writes seeds_list links_to_seedlinks title target ↔
  dict_mem target seeds_list && bool_decide (target ≠ title) = true
  ∨ bool_decide (target ∈ links_to_seedlinks) && bool_decide (target ≠ title) = true.
Proof.
  unfold level1_writes.
  rewrite !andb_true_iff, !bool_decide_eq_true, dict_mem_keys. tauto.
Qed.

Lemma level1_step_skip title target fs :
  ¬ level1_writes seeds_list links_to_seedlinks title target →
  level1_step seeds_list links_to_seedlinks title target fs = fs.
Proof.
  rewrite level1_writes_branches. unfold level1_step. intros Hno.
  destruct (dict_mem target seeds_list && bool_decide (target ≠ title)) eqn:H1;
    [destruct Hno; by left|].
  destruct (bool_decide (target ∈ links_to_seedlinks)
            && bool_decide (target ≠ title)) eqn:H2;
    [destruct Hno; by right|done].
Qed.

Lemma level1_step_keys title target fs :
  dict_keys (level1_step seeds_list links_to_seedlinks title target fs)
  = dict_keys fs.
Proof.
  unfold level1_step.
  destruct (_ && _); [|destruct (_ && _)]; by rewrite ?dict_update_keys.
Qed.

(** One round of the inner loop of the second pass, when it completes. *)
Lemma level1_target_Ok title is_new_page target st u st' :
  level1_target seeds_list links_to_seedlinks title is_new_page target st
  = (Ok u, st') →
  requests st' = requests st
  ∧ first_step st'
    = level1_step seeds_list links_to_seedlinks title target (first_step st)
  ∧ if decide (level1_writes seeds_list links_to_seedlinks title target)
    then net_file st' = net_file st ++ [(title, target)]
         ∧ title ∈ dict_keys (first_step st)
         ∧ target ∈ dict_keys (first_step st)
    else net_file st' = net_file st.
Proof.
  unfold level1_target, level1_step.
  intros ([] & st1 & Hwrite & Hrun)%bind_Ok.
  assert (requests st1 = requests st ∧ net_file st1 = net_file st
          ∧ first_step st1 = first_step st) as (Hreq & Hnet & Hfs).
  { destruct is_new_page; unfold file_write, ret in Hwrite; by simplify_eq. }
  rewrite <-Hreq, <-Hnet, <-Hfs. clear Hwrite Hreq Hnet Hfs.
  pose proof (level1_writes_branches title target) as Hbranches.
  destruct (dict_mem target seeds_list && bool_decide (target ≠ title)) eqn:Hseed.
  { rewrite decide_True by (apply Hbranches; by left).
    apply bind_Ok in Hrun as ([] & st2 & Hnet & Hrun).
    unfold net_file_write in Hnet. simplify_eq.
    apply bind_Ok in Hrun as ([] & st3 & [Hk1 ->]%update_record_run & Hrun).
    apply bind_Ok in Hrun as ([] & st4 & [Hk2 ->]%update_record_run & Hrun).
    apply update_record_run in Hrun as [Hk3 ->]. simpl in *.
    rewrite !dict_update_keys in Hk3. done. }
  destruct (bool_decide (target ∈ links_to_seedlinks)
            && bool_decide (target ≠ title)) eqn:Hfront.
  { rewrite decide_True by (apply Hbranches; by right).
    apply bind_Ok in Hrun as ([] & st2 & Hnet & Hrun).
    unfold net_file_write in Hnet. simplify_eq.
    apply bind_Ok in Hrun as ([] & st3 & [Hk1 ->]%update_record_run & Hrun).
    apply update_record_run in Hrun as [Hk3 ->]. simpl in *.
    rewrite !dict_update_keys in Hk3. done. }
  rewrite decide_False by (rewrite Hbranches; by intros [?|?]).
  unfold ret in Hrun. by simplify_eq.
Qed.

Section level1_invariant.
Variable titles : list string.
Variable G : list (string * string) → dict string degree → Prop.

Hypothesis G_out_WP : ∀ edges fs title n,
  G edges fs → title ∈ titles → title ∈ dict_keys fs →
  G edges (dict_update title (set_out_WP n) fs).
Hypothesis G_edge : ∀ edges fs title target,
  G edges fs → title ∈ titles →
  level1_writes seeds_list links_to_seedlinks title target →
  title ∈ dict_keys fs → target ∈ dict_keys fs →
  G (edges ++ [(title, target)])
    (level1_step seeds_list links_to_seedlinks title target fs).

(** A property of edge stream and degree table that the writes of the
    second pass keep holds when the pass completes. *)
Lemma level1_Ok_inv :
  keeps_ok (λ st, G (net_file st) (first_step st))
    (for_each titles (level1_title site seeds_list links_to_seedlinks)).
Proof.
  apply keeps_ok_for_each. intros title Htitle. unfold level1_title.
  apply keeps_ok_bind; [apply keeps_keeps_ok, (keeps_get_outlinks G)|].
  intros [is_new_page outlinks]. apply keeps_ok_bind.
  - destruct is_new_page; [|apply keeps_keeps_ok, keeps_ret].
    apply keeps_ok_bind; [apply keeps_keeps_ok, (keeps_open_write G)|].
    intros _ st u st' HG [Hk ->]%update_record_run. simpl. by apply G_out_WP.
  - intros _. apply keeps_ok_for_each. intros target _ st u st' HG.
    intros (_ & -> & Hnet)%level1_target_Ok.
    destruct (decide _) as [Hw|Hw].
    + destruct Hnet as (-> & Hk1 & Hk2). by apply G_edge.
    + rewrite Hnet, level1_step_skip by done. done.
Qed.
End level1_invariant.
End level1_runs.

(** ** Invariants of the first pass *)

Lemma dict_set_keys_elem {V} (d : dict string V) k v x :
  x ∈ dict_keys (dict_set k v d) ↔ x = k ∨ x ∈ dict_keys d.
Proof.
  rewrite dict_set_keys. case_decide as Hk.
  - split; [auto|]. by intros [->|?].
  - rewrite elem_of_app, list_elem_of_singleton. tauto.
Qed.

Section level0_invariants.
Variable site : site_t.
Variable seeds_list : dict string Z.

Lemma level0_source_keys seed target outlinks fs x :
  x ∈ dict_keys (level0_source seeds_list seed target outlinks fs)
  ↔ x = seed ∨ x ∈ dict_keys fs.
Proof.
  unfold level0_source.
  destruct (dict_get fs seed), (dict_mem target seeds_list);
    apply dict_set_keys_elem.
Qed.

Lemma level0_sink_keys target fs x :
  x ∈ dict_keys (level0_sink seeds_list target fs)
  ↔ x = target ∨ x ∈ dict_keys fs.
Proof.
  unfold level0_sink.
  destruct (dict_get fs target), (dict_mem target seeds_list);
    apply dict_set_keys_elem.
Qed.

(** A property that every written line keeps holds for all lines of a
    seed. *)
Lemma level0_table_inv (G : list (string * string) → dict string degree → Prop)
    seed outlinks targets edges fs :
  (∀ edges fs target, G edges fs → target ∈ targets → seed ≠ target →
     G (edges ++ [(seed, target)])
       (level0_sink seeds_list target
          (level0_source seeds_list seed target outlinks fs))) →
  G edges fs →
  G (edges ++ level0_edges seed targets)
    (level0_table seeds_list seed outlinks targets fs).
Proof.
  revert edges fs. induction targets as [|target targets IH]; intros edges fs Hstep HG.
  - unfold level0_edges. simpl. by rewrite app_nil_r.
  - unfold level0_edges, level0_table. rewrite filter_cons. cbn [fold_left].
    destruct (decide (seed = target)) as [Heq|Hne].
    + rewrite decide_False by auto. apply IH; [|done].
      intros ??? ? ?. apply Hstep; [done|by right].
    + rewrite decide_True by done. rewrite fmap_cons, cons_middle, app_assoc.
      apply IH.
      * intros ??? ? ?. apply Hstep; [done|by right].
      * apply Hstep; [done|left|done].
Qed.

Section level0_invariant.
Variable order : list string.
Variable G : list (string * string) → dict string degree → Prop.

Hypothesis G_out_WP : ∀ edges fs seed n,
  G edges fs → G edges (dict_update seed (set_out_WP n) fs).
Hypothesis G_edge : ∀ edges fs seed target outlinks,
  G edges fs → seed ∈ order → seed ≠ target →
  G (edges ++ [(seed, target)])
    (level0_sink seeds_list target
       (level0_source seeds_list seed target outlinks fs)).

(** A property of edge stream and degree table that the writes of the
    first pass keep holds when the pass completes. *)
Lemma level0_Ok_inv acc :
  keeps_ok (λ st, G (net_file st) (first_step st))
    (foldM (level0_seed site seeds_list) acc order).
Proof.
  apply keeps_ok_foldM. intros lls seed Hseed st lls' st' HG.
  intros (is_new & outlinks & st1 & _ & _ & -> & ->)%level0_seed_Ok.
  apply level0_table_inv.
  - intros ??? ? ? ?. by apply G_edge.
  - destruct is_new; [by apply G_out_WP|done].
Qed.
End level0_invariant.
End level0_invariants.

Lemma level0_source_get seeds_list seed target outlinks fs x :
  dict_get (level0_source seeds_list seed target outlinks fs) x =
  if decide (seed = x) then
    Some match dict_get fs seed with
         | Some r =>
             if dict_mem target seeds_list
             then incr_links_to_seed (incr_out_degree r)
             else incr_out_degree r
         | None =>
             if dict_mem target seeds_list
             then Degree true 0 1 0 1 (len outlinks)
             else Degree true 0 0 0 1 (len outlinks)
         end
  else dict_get fs x.
Proof.
  unfold level0_source.
  destruct (dict_get fs seed), (dict_mem target seeds_list);
    by rewrite dict_get_set.
Qed.

Lemma level0_sink_get seeds_list target fs x :
  dict_get (level0_sink seeds_list target fs) x =
  if decide (target = x) then
    Some match dict_get fs target with
         | Some r =>
             if dict_mem target seeds_list
             then set_seed (incr_in_degree (incr_links_from_seed r))
             else incr_in_degree (incr_links_from_seed r)
         | None =>
             if dict_mem target seeds_list
             then Degree true 1 0 1 0 0
             else Degree false 1 0 1 0 0
         end
  else dict_get fs x.
Proof.
  unfold level0_sink.
  destruct (dict_get fs target), (dict_mem target seeds_list);
    by rewrite dict_get_set.
Qed.

Lemma count_edges_snoc (p : string * string → Prop) `{∀ e, Decision (p e)} edges e :
  count_edges p (edges ++ [e]) = count_edges p edges + (if decide (p e) then 1 else 0).
Proof.
  unfold count_edges, len. rewrite filter_app, length_app, filter_cons, filter_nil.
  case_decide; simpl; lia.
Qed.

(** ** The exported table and the edge stream *)

Section table_facts.
Variable site : site_t.
Variable set_order : list string → list string.

(** A property of edge stream and degree table that holds for the empty
    stream and table and that every write of the two passes keeps holds
    at the export. *)
Lemma extract_network_Ok_inv
    (G : list (string * string) → dict string degree → Prop)
    seed_file fs table st :
  G [] [] →
  (∀ edges fs title n, G edges fs → G edges (dict_update title (set_out_WP n) fs)) →
  (∀ edges fs seed target outlinks,
     G edges fs → seed ∈ set_order (dict_keys (load_seed seed_file)) →
     seed ≠ target →
     G (edges ++ [(seed, target)])
       (level0_sink (load_seed seed_file) target
          (level0_source (load_seed seed_file) seed target outlinks fs))) →
  (∀ lls edges fs title target,
     G edges fs → title ∈ frontier set_order (load_seed seed_file) lls →
     level1_writes (load_seed seed_file)
       (frontier set_order (load_seed seed_file) lls) title target →
     title ∈ dict_keys fs → target ∈ dict_keys fs →
     G (edges ++ [(title, target)])
       (level1_step (load_seed seed_file)
          (frontier set_order (load_seed seed_file) lls) title target fs)) →
  extract_network site set_order seed_file (notebook_env fs) = (Ok table, st) →
  table = first_step st ∧ G (net_file st) (first_step st).
Proof.
  intros Hinit Hwp Hedge0 Hedge1 Hrun. unfold extract_network in Hrun.
  apply bind_Ok in Hrun as (lls & st0 & Hlevel0 & Hrun).
  apply bind_Ok in Hrun as ([] & st1 & Hlevel1 & Hrun).
  unfold get_first_step in Hrun. simplify_eq. split; [done|].
  revert Hlevel1. unfold level1. apply level1_Ok_inv.
  { intros edges fs0 title n ? _ _. by apply Hwp. }
  { intros edges fs0 title target. apply Hedge1. }
  revert Hlevel0. unfold level0.
  intros ([] & st2 & Hreset & Hloop)%bind_Ok.
  unfold set_first_step in Hreset. simplify_eq. revert Hloop.
  by apply (level0_Ok_inv site _ _ G).
Qed.

(** X14: in the table that a run exports, a title has a row exactly
    when it is the source or the target of a line of the edge stream. *)
Theorem table_rows_are_endpoints seed_file fs table st :
  extract_network site set_order seed_file (notebook_env fs) = (Ok table, st) →
  ∀ t, t ∈ dict_keys table ↔ ∃ e, e ∈ net_file st ∧ (e.1 = t ∨ e.2 = t).
Proof.
  intros Hrun.
  apply (extract_network_Ok_inv (λ edges fs,
           ∀ t, t ∈ dict_keys fs ↔ ∃ e, e ∈ edges ∧ (e.1 = t ∨ e.2 = t)))
    in Hrun as [-> Hrows]; [done| | | |].
  - intros t. split; [by intros ?%elem_of_nil|]. by intros (e & ?%elem_of_nil & _).
  - intros edges fs0 title n Hrows t. by rewrite dict_update_keys.
  - intros edges fs0 seed target outlinks Hrows _ _ t.
    rewrite level0_sink_keys, level0_source_keys, Hrows.
    setoid_rewrite elem_of_app. setoid_rewrite list_elem_of_singleton.
    split.
    + intros [->|[->|(e & He & Ht)]];
        [exists (seed, target)|exists (seed, target)|exists e]; auto.
    + intros (e & [He| ->] & Ht); [right; right; eauto|].
      simpl in Ht. destruct Ht as [<-|<-]; auto.
  - intros lls edges fs0 title target Hrows _ _ Htitle Htarget t.
    rewrite level1_step_keys, Hrows.
    setoid_rewrite elem_of_app. setoid_rewrite list_elem_of_singleton.
    split.
    + intros (e & He & Ht). eauto.
    + intros (e & [He| ->] & Ht); [eauto|].
      apply Hrows. simpl in Ht. by destruct Ht as [<-|<-].
Qed.

(** Python iterates over a set once per element, in some order. *)
Hypothesis set_order_perm : ∀ l, set_order l ≡ₚ remove_dups l.

Lemma set_order_elem l x : x ∈ set_order l ↔ x ∈ l.
Proof. by rewrite set_order_perm, elem_of_remove_dups. Qed.

Lemma frontier_not_seed seeds_list lls t :
  t ∈ frontier set_order seeds_list lls → t ∉ dict_keys seeds_list.
Proof.
  unfold frontier. rewrite set_order_elem, list_elem_of_filter. by intros [? _].
Qed.

Lemma dict_mem_false {V} k (d : dict string V) : dict_mem k d = false ↔ k ∉ dict_keys d.
Proof. unfold dict_mem. by rewrite bool_decide_eq_false. Qed.

(** X15: in the table that a run exports, the [seed] column of a row is
    true exactly when the title of the row is a seed. *)
Theorem table_seed_flag seed_file fs table st :
  extract_network site set_order seed_file (notebook_env fs) = (Ok table, st) →
  ∀ t r, (t, r) ∈ table →
    (seed r = true ↔ t ∈ dict_keys (load_seed seed_file)).
Proof.
  intros Hrun.
  apply (extract_network_Ok_inv (λ _ fs,
           NoDup (dict_keys fs)
           ∧ ∀ x r, dict_get fs x = Some r →
               (seed r = true ↔ x ∈ dict_keys (load_seed seed_file))))
    in Hrun as [-> [Hnd Hflag]].
  - intros t r Hrow. apply Hflag. by apply dict_elem_get.
  - split; [constructor|done].
  - intros _ fs0 title n [Hnd Hflag]. split; [by rewrite dict_update_keys|].
    intros x r. rewrite dict_get_update. case_decide; [|apply Hflag].
    destruct (dict_get fs0 x) as [r0|] eqn:Hr0; [|done].
    intros Hr. simpl in Hr. simplify_eq. simpl. by apply Hflag.
  - intros _ fs0 seed target outlinks [Hnd Hflag] Hseed Hne.
    apply (proj1 (set_order_elem _ _)) in Hseed.
    split; [by apply level0_sink_NoDup, level0_source_NoDup|].
    intros x r. rewrite level0_sink_get, !level0_source_get.
    rewrite (decide_False (P := seed = target)) by done.
    destruct (decide (target = x)) as [<-|Hx].
    + unfold dict_mem.
      destruct (dict_get fs0 target) as [r0|] eqn:Hr0; case_bool_decide as Hmem;
        intros ?; simplify_eq; simpl;
        try (by apply Hflag); intuition congruence.
    + destruct (decide (seed = x)) as [<-|Hx']; [|apply Hflag].
      destruct (dict_get fs0 seed) as [r0|] eqn:Hr0,
        (dict_mem target (load_seed seed_file));
        intros ?; simplify_eq; simpl; try (by apply Hflag); intuition congruence.
  - intros lls _ fs0 title target [Hnd Hflag] _ _ _ _.
    split; [by rewrite level1_step_keys|].
    intros x r. unfold level1_step.
    destruct (_ && _); [|destruct (_ && _); [|apply Hflag]];
      rewrite !dict_get_update;
      repeat case_decide; subst;
      destruct (dict_get fs0 x) as [r0|] eqn:Hr0; try done;
      intros Hr; simpl in Hr; simplify_eq; simpl; by apply Hflag.
Qed.

Lemma rec_field_update proj k f fs x :
  rec_field proj (dict_update k f fs) x =
  if decide (k = x) then from_option (λ r, proj (f r)) 0 (dict_get fs x)
  else rec_field proj fs x.
Proof.
  unfold rec_field. rewrite dict_get_update. case_decide; [|done].
  by destruct (dict_get fs x).
Qed.

(** X16: in the table that a run exports, [links_from_seed] of a row
    counts the lines of the edge stream that lead from a seed to the
    title of the row, and [links_to_seed] counts the lines that lead
    from the title of the row to a seed. *)
Theorem table_seed_links seed_file fs table st :
  extract_network site set_order seed_file (notebook_env fs) = (Ok table, st) →
  ∀ t r, (t, r) ∈ table →
    links_from_seed r
    = count_edges (λ e, e.2 = t ∧ e.1 ∈ dict_keys (load_seed seed_file))
        (net_file st)
    ∧ links_to_seed r
      = count_edges (λ e, e.1 = t ∧ e.2 ∈ dict_keys (load_seed seed_file))
          (net_file st).
Proof.
  intros Hrun.
  apply (extract_network_Ok_inv (λ edges fs,
           NoDup (dict_keys fs)
           ∧ ∀ x, rec_field links_from_seed fs x
                  = count_edges
                      (λ e, e.2 = x ∧ e.1 ∈ dict_keys (load_seed seed_file)) edges
                  ∧ rec_field links_to_seed fs x
                    = count_edges
                        (λ e, e.1 = x ∧ e.2 ∈ dict_keys (load_seed seed_file)) edges))
    in Hrun as [-> [Hnd Hlinks]].
  - intros t r Hrow%(dict_elem_get _ _ _ Hnd).
    destruct (Hlinks t) as [<- <-]. unfold rec_field. by rewrite Hrow.
  - split; [constructor|done].
  - intros edges fs0 title n [Hnd Hlinks]. split; [by rewrite dict_update_keys|].
    intros x. destruct (Hlinks x) as [<- <-]. rewrite !rec_field_update.
    case_decide; [|done]. unfold rec_field. by destruct (dict_get fs0 x).
  - intros edges fs0 seed target outlinks [Hnd Hlinks] Hseed Hne.
    apply (proj1 (set_order_elem _ _)) in Hseed.
    split; [by apply level0_sink_NoDup, level0_source_NoDup|].
    set (S := dict_keys (load_seed seed_file)) in *.
    intros x. destruct (Hlinks x) as [Hfrom Hto].
    pose proof (Hlinks seed) as [Hfrom_s Hto_s].
    pose proof (Hlinks target) as [Hfrom_t Hto_t].
    rewrite !count_edges_snoc. unfold rec_field in *. cbn [fst snd].
    rewrite level0_sink_get, !level0_source_get.
    rewrite (decide_False (P := seed = target)) by done. unfold dict_mem.
    destruct (decide (target = x)) as [<-|Hx].
    + rewrite (decide_True (P := target = target ∧ seed ∈ S)) by done.
      rewrite (decide_False (P := seed = target ∧ target ∈ S)) by (by intros [? _]).
      destruct (dict_get fs0 target); case_bool_decide; simpl in *; lia.
    + rewrite (decide_False (P := target = x ∧ seed ∈ S)) by (by intros [? _]).
      destruct (decide (seed = x)) as [<-|Hx'].
      * destruct (dict_get fs0 seed); case_bool_decide as Hmem;
          [rewrite (decide_True (P := seed = seed ∧ target ∈ S)) by done
          |rewrite (decide_False (P := seed = seed ∧ target ∈ S)) by (by intros [_ ?])
          |rewrite (decide_True (P := seed = seed ∧ target ∈ S)) by done
          |rewrite (decide_False (P := seed = seed ∧ target ∈ S)) by (by intros [_ ?])];
          simpl in *; lia.
      * rewrite (decide_False (P := seed = x ∧ target ∈ S)) by (by intros [? _]).
        lia.
  - intros lls edges fs0 title target [Hnd Hlinks] Hfront [Hne Hallowed] Hk1 Hk2.
    apply frontier_not_seed in Hfront.
    split; [by rewrite level1_step_keys|].
    set (S := dict_keys (load_seed seed_file)) in *.
    apply dict_get_is_Some in Hk1 as [r1 Hr1].
    apply dict_get_is_Some in Hk2 as [r2 Hr2].
    intros x. destruct (Hlinks x) as [Hfrom Hto].
    rewrite !count_edges_snoc. cbn [fst snd].
    rewrite (decide_False (P := target = x ∧ title ∈ S)) by (by intros [_ ?]).
    unfold level1_step, dict_mem.
    rewrite (bool_decide_eq_true_2 (target ≠ title)) by done.
    case_bool_decide as Hmem; cbn [andb].
    + rewrite !rec_field_update, !dict_get_update.
      destruct (decide (title = x)) as [Hx|Hx], (decide (target = x)) as [Hx'|Hx'];
        [rewrite (decide_True (P := title = x ∧ target ∈ S)) by done
        |rewrite (decide_True (P := title = x ∧ target ∈ S)) by done
        |rewrite (decide_False (P := title = x ∧ target ∈ S)) by (by intros [? _])
        |rewrite (decide_False (P := title = x ∧ target ∈ S)) by (by intros [? _])];
        subst; unfold rec_field in *; rewrite ?Hr1, ?Hr2 in *; simpl in *;
        try done; lia.
    + destruct Hallowed as [?|Hin]; [done|].
      rewrite (bool_decide_eq_true_2 (target ∈ _)) by done. cbn [andb].
      rewrite (decide_False (P := title = x ∧ target ∈ S)) by (by intros [_ ?]).
      rewrite !rec_field_update, !dict_get_update.
      destruct (decide (title = x)) as [Hx|Hx], (decide (target = x)) as [Hx'|Hx'];
        subst; unfold rec_field in *; rewrite ?Hr1, ?Hr2 in *; simpl in *;
        try done; lia.
Qed.
End table_facts.

(** ** The two passes *)

Section passes.
Variable site : site_t.
Variable set_order : list string → list string.

Lemma level0_loop_stream seeds_list order acc st lls st' :
  foldM (level0_seed site seeds_list) acc order st = (Ok lls, st') →
  ∃ outlinks_list,
    lls = acc ++ outlinks_list
    ∧ length outlinks_list = length order
    ∧ net_file st' = net_file st ++ concat (zip_with level0_edges order outlinks_list).
Proof.
  revert acc st. induction order as [|seed order IH]; intros acc st; cbn [foldM].
  - unfold ret. intros ?. simplify_eq. exists []. by rewrite !app_nil_r.
  - intros (lls1 & st1 & Hseed & Hrest)%bind_Ok.
    apply level0_seed_Ok in Hseed as (is_new & outlinks & st2 & _ & -> & Hnet & _).
    apply IH in Hrest as (outlinks_list & -> & Hlen & ->).
    exists (outlinks :: outlinks_list). split_and!.
    + by rewrite <-app_assoc.
    + simpl. by rewrite Hlen.
    + rewrite Hnet. simpl. by rewrite <-app_assoc.
Qed.

(** X17: the first pass returns one outlink list per seed, in the order
    in which it goes through the seeds, and it has written to the edge
    stream, seed after seed, one line per outlink other than the seed
    itself, in the order of the outlinks. *)
Theorem level0_stream seeds_list st lls st' :
  level0 site set_order seeds_list st = (Ok lls, st') →
  length lls = length (set_order (dict_keys seeds_list))
  ∧ net_file st'
    = net_file st
      ++ concat (zip_with level0_edges (set_order (dict_keys seeds_list)) lls).
Proof.
  unfold level0. intros ([] & st1 & Hreset & Hloop)%bind_Ok.
  unfold set_first_step in Hreset. simplify_eq.
  apply level0_loop_stream in Hloop as (outlinks_list & -> & Hlen & ->). done.
Qed.

Lemma level0_table_keys seeds_list seed outlinks targets fs x :
  x ∈ dict_keys (level0_table seeds_list seed outlinks targets fs) ↔
  x ∈ dict_keys fs
  ∨ ∃ target, target ∈ targets ∧ seed ≠ target ∧ (x = seed ∨ x = target).
Proof.
  revert fs. induction targets as [|target targets IH]; intros fs.
  - simpl. split; [auto|]. by intros [?|(t & ?%elem_of_nil & _)].
  - change (level0_table seeds_list seed outlinks (target :: targets) fs)
      with (level0_table seeds_list seed outlinks targets
              (if decide (seed = target) then fs
               else level0_sink seeds_list target
                      (level0_source seeds_list seed target outlinks fs))).
    rewrite IH. setoid_rewrite elem_of_cons.
    destruct (decide (seed = target)) as [Heq|Hne].
    + split; [intros [?|(t & ? & ? & ?)]; eauto 8|].
      intros [?|(t & [-> |?] & ? & ?)]; [auto|done|eauto 8].
    + rewrite level0_sink_keys, level0_source_keys. split.
      * intros [[-> |[-> |?]]|(t & ? & ? & ?)]; eauto 10.
      * intros [?|(t & [-> |?] & ? & [-> | ->])]; eauto 10.
Qed.

(** Python iterates over a set once per element, in some order. *)
Hypothesis set_order_perm : ∀ l, set_order l ≡ₚ remove_dups l.

(** X18: when the first pass completes, the degree table has a record
    for every title of the frontier, which is the record whose [out_WP]
    the second pass sets. *)
Theorem frontier_has_records seeds_list st lls st0 :
  level0 site set_order seeds_list st = (Ok lls, st0) →
  ∀ title, title ∈ frontier set_order seeds_list lls →
    is_Some (dict_get (first_step st0) title).
Proof.
  unfold level0. intros ([] & st1 & _ & Hloop)%bind_Ok.
  assert (∀ l t, l ∈ lls → t ∈ l → t ∉ dict_keys seeds_list →
            t ∈ dict_keys (first_step st0)) as Hrec.
  { revert Hloop.
    apply (foldM_Ok (λ lls st, ∀ l t, l ∈ lls → t ∈ l →
             t ∉ dict_keys seeds_list → t ∈ dict_keys (first_step st)));
      [|by intros ?? ?%elem_of_nil].
    intros lls1 seed st2 lls2 st3 Hseed Hinv.
    intros (is_new & outlinks & st4 & _ & -> & _ & ->)%level0_seed_Ok.
    rewrite (set_order_perm _), elem_of_remove_dups in Hseed.
    intros l t [Hl| ->%list_elem_of_singleton]%elem_of_app Ht Hnot;
      apply level0_table_keys.
    - left. destruct is_new; rewrite ?dict_update_keys; eauto.
    - right. exists t. split_and!; [done|by intros ->|by right]. }
  intros title Htitle. apply dict_get_is_Some.
  unfold frontier in Htitle.
  rewrite (set_order_perm _), elem_of_remove_dups, list_elem_of_filter,
    elem_of_concat in Htitle.
  destruct Htitle as [Hnot (l & Hl & Ht)]. eauto.
Qed.

(** X19: in a run that reaches the export, every line that the first
    pass wrote starts at a seed, and every line that the second pass
    wrote starts at a title of the frontier, which is not a seed. *)
Theorem edge_sources seed_file fs lls st0 table st1 :
  level0 site set_order (load_seed seed_file) (notebook_env fs) = (Ok lls, st0) →
  extract_network site set_order seed_file (notebook_env fs) = (Ok table, st1) →
  Forall (λ e, e.1 ∈ dict_keys (load_seed seed_file)) (net_file st0)
  ∧ ∃ edges1,
      net_file st1 = net_file st0 ++ edges1
      ∧ Forall (λ e, e.1 ∈ frontier set_order (load_seed seed_file) lls
                     ∧ e.1 ∉ dict_keys (load_seed seed_file)) edges1.
Proof.
  intros Hlevel0 Hrun. split.
  - pose proof Hlevel0 as Hstream. unfold level0 in Hstream.
    apply bind_Ok in Hstream as ([] & st2 & Hreset & Hloop).
    unfold set_first_step in Hreset. simplify_eq.
    apply level0_loop_stream in Hloop as (outlinks_list & -> & _ & ->). simpl.
    apply Forall_concat, Forall_forall. intros edges Hedges.
    apply elem_of_lookup_zip_with in Hedges as (i & seed & outlinks & -> & Hseed & _).
    apply list_elem_of_lookup_2 in Hseed.
    rewrite (set_order_perm _), elem_of_remove_dups in Hseed.
    unfold level0_edges. apply Forall_fmap, Forall_forall. by intros.
  - rewrite extract_network_passes, Hlevel0 in Hrun.
    destruct (level1 _ _ _ _) as [[[]|e] st2] eqn:Hlevel1; [|done]. simplify_eq.
    revert Hlevel1. unfold level1.
    apply (level1_Ok_inv site _ _ _ (λ edges _,
             ∃ edges1, edges = net_file st0 ++ edges1
               ∧ Forall (λ e, e.1 ∈ frontier set_order (load_seed seed_file) lls
                              ∧ e.1 ∉ dict_keys (load_seed seed_file)) edges1)).
    + done.
    + intros edges _ title target (edges1 & -> & Hall) Htitle _ _ _.
      exists (edges1 ++ [(title, target)]). split; [by rewrite app_assoc|].
      apply Forall_app. split; [done|]. constructor; [|constructor].
      split; [done|]. unfold frontier in Htitle.
      rewrite (set_order_perm _), elem_of_remove_dups, list_elem_of_filter in Htitle.
      by destruct Htitle.
    + exists []. split; [by rewrite app_nil_r|constructor].
Qed.
End passes.

(** ** Storing and loading the outlinks *)

Section store_and_load.
Variable site : site_t.
Variable seeds_list : dict string Z.

Lemma get_outlinks_of_cached site' title st outlinks :
  cached (files st) title = outlinks → outlinks ≠ [] →
  get_outlinks site' title st = (Ok (false, outlinks), st).
Proof.
  intros Hcached Hne. unfold get_outlinks, bind.
  rewrite read_lines_cached, Hcached. by destruct outlinks.
Qed.

(** X20: when the second pass has asked the service for the outlinks of
    a title and has gone through them, a later [get_outlinks] for the
    title, from any process that finds the link files as they are,
    returns the same outlinks in the same order without asking the
    service, provided there is an outlink and no outlink holds a line
    boundary. *)
Theorem level1_store_then_load links_to_seedlinks title st outlinks st1 u st'
    site' st2 :
  get_outlinks site title st = (Ok (true, outlinks), st1) →
  level1_title site seeds_list links_to_seedlinks title st = (Ok u, st') →
  Forall (λ t, one_line t = true) outlinks → outlinks ≠ [] →
  files st2 = files st' →
  get_outlinks site' title st2 = (Ok (false, outlinks), st2).
Proof.
  intros Hget Hrun Hlines Hne Hfiles. apply get_outlinks_of_cached; [|done].
  unfold cached. rewrite Hfiles.
  rewrite (level1_title_stores _ _ _ _ _ _ _ _ _ Hget Hrun).
  by apply splitlines_link_lines.
Qed.

(** X21: the same holds for a seed after the first pass, provided the
    seed is not among its own outlinks. *)
Theorem level0_store_then_load lls seed st outlinks st1 lls' st' site' st2 :
  get_outlinks site seed st = (Ok (true, outlinks), st1) →
  level0_seed site seeds_list lls seed st = (Ok lls', st') →
  Forall (λ t, one_line t = true) outlinks → outlinks ≠ [] →
  seed ∉ outlinks →
  files st2 = files st' →
  get_outlinks site' seed st2 = (Ok (false, outlinks), st2).
Proof.
  intros Hget Hrun Hlines Hne Hself Hfiles. apply get_outlinks_of_cached; [|done].
  unfold cached. rewrite Hfiles.
  rewrite (level0_seed_stores _ _ _ _ _ _ _ _ _ Hget Hrun).
  assert (filter (λ t, seed ≠ t) outlinks = outlinks) as ->.
  { clear -Hself. induction outlinks as [|t l IH]; [done|].
    apply not_elem_of_cons in Hself as [Ht Hl].
    rewrite filter_cons, decide_True by done. by rewrite IH. }
  by apply splitlines_link_lines.
Qed.
End store_and_load.

(** ** A run on link files that hold everything *)

Section cached_run.
Variable site : site_t.
Variable set_order : list string → list string.
Variable files0 : gmap string string.
Variable log0 : list params.

(** The link files and the requests are as at the start. *)
Let untouched (st : env) : Prop := files st = files0 ∧ requests st = log0.

Lemma untouched_net_file_write s t : keeps untouched (net_file_write s t).
Proof. intros st r st' HP ?. unfold net_file_write in *. by simplify_eq. Qed.

Lemma untouched_update_record k f : keeps untouched (update_record k f).
Proof.
  intros st r st' HP.
  unfold update_record, bind, get_first_step, expect, set_first_step, ret, raise.
  destruct (dict_get (first_step st) k); intros ?; by simplify_eq.
Qed.

Lemma untouched_level0_target seeds_list seed outlinks target :
  keeps untouched (level0_target seeds_list seed false outlinks target).
Proof.
  intros st r st' HP. rewrite level0_target_run. intros ?. simplify_eq.
  by case_decide.
Qed.

Lemma untouched_level1_target seeds_list links_to_seedlinks title target :
  keeps untouched (level1_target seeds_list links_to_seedlinks title false target).
Proof.
  unfold level1_target. apply keeps_bind; [apply keeps_ret|]. intros _.
  destruct (_ && _); [|destruct (_ && _); [|apply keeps_ret]];
    (apply keeps_bind; [apply untouched_net_file_write|intros _]);
    repeat (apply keeps_bind; [apply untouched_update_record|intros _]);
    apply untouched_update_record.
Qed.

Lemma untouched_hit title st :
  untouched st → cached files0 title ≠ [] →
  get_outlinks site title st = (Ok (false, cached files0 title), st).
Proof.
  intros [Hfiles _] Hhit. unfold get_outlinks, bind.
  rewrite read_lines_cached, Hfiles. by destruct (cached files0 title).
Qed.

Lemma untouched_level0_seed seeds_list lls seed :
  cached files0 seed ≠ [] →
  ∀ st r st', untouched st →
    level0_seed site seeds_list lls seed st = (r, st') →
    untouched st' ∧ r = Ok (lls ++ [cached files0 seed]).
Proof.
  intros Hhit st r st' Hst. unfold level0_seed, bind.
  rewrite untouched_hit by done. unfold ret at 1.
  destruct (level0_targets_run seeds_list seed false
              (cached files0 seed) (cached files0 seed) st) as [fs' Hrun].
  rewrite Hrun. unfold ret. intros ?. simplify_eq. split; [|done].
  revert Hrun. apply keeps_for_each; [|done].
  intros target _. apply untouched_level0_target.
Qed.

Lemma untouched_level1_title seeds_list links_to_seedlinks title :
  cached files0 title ≠ [] →
  keeps untouched (level1_title site seeds_list links_to_seedlinks title).
Proof.
  intros Hhit st r st' Hst. unfold level1_title, bind.
  rewrite untouched_hit by done. unfold ret.
  apply keeps_for_each; [|done]. intros target _. apply untouched_level1_target.
Qed.

Hypothesis set_order_perm : ∀ l, set_order l ≡ₚ remove_dups l.

(** X22: when the link file of every seed holds lines, and so does the
    link file of every title on these lines that is not a seed, a run
    sends no request and leaves the link files as they are, however it
    ends. *)
Theorem cached_run_is_offline seed_file r st :
  (∀ seed, seed ∈ dict_keys (load_seed seed_file) → cached files0 seed ≠ []) →
  (∀ seed title, seed ∈ dict_keys (load_seed seed_file) →
     title ∈ cached files0 seed → title ∉ dict_keys (load_seed seed_file) →
     cached files0 title ≠ []) →
  extract_network site set_order seed_file (Env files0 log0 [] []) = (r, st) →
  files st = files0 ∧ requests st = log0.
Proof.
  intros Hseeds Hfront. rewrite extract_network_passes.
  set (seeds_list := load_seed seed_file) in *.
  assert (∀ order acc st0 r0 st1,
    (∀ seed, seed ∈ order → seed ∈ dict_keys seeds_list) →
    untouched st0 →
    (∀ l, l ∈ acc → ∃ seed, seed ∈ dict_keys seeds_list ∧ l = cached files0 seed) →
    foldM (level0_seed site seeds_list) acc order st0 = (r0, st1) →
    untouched st1
    ∧ ∀ lls, r0 = Ok lls →
        ∀ l, l ∈ lls → ∃ seed, seed ∈ dict_keys seeds_list ∧ l = cached files0 seed)
    as Hlevel0.
  { induction order as [|seed order IH]; intros acc st0 r0 st1 Horder Hst Hacc; cbn [foldM].
    - unfold ret. intros ?. simplify_eq. split; [done|]. intros lls ?. by simplify_eq.
    - unfold bind.
      destruct (level0_seed site seeds_list acc seed st0) as [r1 st2] eqn:Hseed.
      apply untouched_level0_seed in Hseed as [Hst2 ->];
        [|apply Hseeds, Horder; left|done].
      apply IH; [intros; apply Horder; by right|done|].
      intros l [Hl| ->%list_elem_of_singleton]%elem_of_app; [by apply Hacc|].
      exists seed. split; [apply Horder; left|done]. }
  unfold level0 at 1, bind at 1. unfold set_first_step at 1.
  destruct (foldM _ _ _ _) as [[lls|e] st0] eqn:Hloop;
    apply Hlevel0 in Hloop as [Hst0 Hlls];
    try (intros ?; by rewrite (set_order_perm _), elem_of_remove_dups);
    try done; try (by intros ? ?%elem_of_nil);
    [|intros ?; by simplify_eq].
  specialize (Hlls lls eq_refl).
  assert (untouched (level1 site seeds_list (frontier set_order seeds_list lls) st0).2)
    as Hst1.
  { destruct (level1 _ _ _ _) as [r1 st1] eqn:Hlevel1. simpl. revert Hlevel1.
    unfold level1. apply keeps_for_each; [|done].
    intros title Htitle. apply untouched_level1_title.
    unfold frontier in Htitle.
    rewrite (set_order_perm _), elem_of_remove_dups, list_elem_of_filter,
      elem_of_concat in Htitle.
    destruct Htitle as [Hnot (l & Hl & Ht)].
    destruct (Hlls l Hl) as (seed & Hseed & ->). by eapply Hfront. }
  destruct (level1 _ _ _ _) as [[[]|e] st1]; intros ?; by simplify_eq.
Qed.
End cached_run.

(** ** The seed file and the titles of a request *)

Lemma normalize_head c s :
  ∃ c' s', normalize (String c s) = String c' s' ∧ (c ≠ "#"%char → c' ≠ "#"%char).
Proof.
  exists (if Ascii.eqb c " " then "_"%char else c), (normalize s).
  split; [done|]. by destruct (Ascii.eqb c " ").
Qed.

(** X23: the dictionary that [load_seed] returns has each seed once,
    with the value 1; no seed in it is empty, begins with the comment
    sign or holds a space. *)
Theorem load_seed_keys file_text :
  NoDup (dict_keys (load_seed file_text))
  ∧ Forall (λ entry,
       entry.2 = 1 ∧ no_space entry.1 = true
       ∧ ∃ c s, entry.1 = String c s ∧ c ≠ "#"%char) (load_seed file_text).
Proof.
  unfold load_seed.
  generalize (file_lines (universal_newlines file_text)). intros lines.
  set (P := λ dic : dict string Z,
    NoDup (dict_keys dic)
    ∧ Forall (λ entry, entry.2 = 1 ∧ no_space entry.1 = true
                ∧ ∃ c s, entry.1 = String c s ∧ c ≠ "#"%char) dic).
  assert (P []) as Hinit by (split; constructor).
  revert Hinit. generalize (@nil (string * Z)).
  induction lines as [|line lines IH]; intros dic Hdic; [done|].
  cbn [fold_left]. apply IH.
  destruct (str_strip LF line) as [|c el]; [done|].
  destruct (Ascii.eqb_spec c "#") as [->|Hc]; [done|]. cbn [negb].
  destruct Hdic as [Hnd Hall]. split; [by apply dict_set_NoDup|].
  apply Forall_forall. intros [k v] [?|?]%dict_set_elem.
  - simplify_eq. split_and!; [done|apply normalize_no_space|].
    destruct (normalize_head c el) as (c' & s' & -> & Hc'). eauto.
  - by apply (proj1 (Forall_forall _ _) Hall).
Qed.

Lemma str_lstrip_head c s : get 0 (str_lstrip c s) ≠ Some c.
Proof.
  induction s as [|a s IH]; [done|]. cbn [str_lstrip].
  destruct (Ascii.eqb_spec a c) as [->|Ha]; [done|].
  cbn. by intros [= ->].
Qed.

Lemma str_rstrip_cons c a s :
  str_rstrip c (String a s) =
  match str_rstrip c s with
  | EmptyString => if Ascii.eqb a c then EmptyString else String a EmptyString
  | r => String a r
  end.
Proof. reflexivity. Qed.

Lemma str_rstrip_head c s : get 0 s ≠ Some c → get 0 (str_rstrip c s) ≠ Some c.
Proof.
  destruct s as [|a s]; [done|]. rewrite str_rstrip_cons. cbn. intros Ha.
  destruct (str_rstrip c s); [|done].
  destruct (Ascii.eqb a c); done.
Qed.

Lemma str_rstrip_last c s :
  get (String.length (str_rstrip c s) - 1) (str_rstrip c s) ≠ Some c.
Proof.
  induction s as [|a s IH]; [done|]. rewrite str_rstrip_cons.
  destruct (str_rstrip c s) as [|b r] eqn:Hr.
  - destruct (Ascii.eqb_spec a c) as [->|Ha]; [done|]. cbn. by intros [= ->].
  - replace (String.length (String a (String b r)) - 1)%nat
      with (S (String.length (String b r) - 1)) by (cbn [String.length]; lia).
    exact IH.
Qed.

(** X24: the [titles] parameter of a request for a batch neither
    begins nor ends with the separator bar, whatever the titles of the
    batch are. *)
Theorem titles_param_trimmed title_list :
  get 0 (titles_param title_list) ≠ Some "|"%char
  ∧ get (String.length (titles_param title_list) - 1) (titles_param title_list)
    ≠ Some "|"%char.
Proof.
  unfold titles_param, str_strip. split.
  - apply str_rstrip_head, str_lstrip_head.
  - apply str_rstrip_last.
Qed.

(** ** Runs of the fixtures *)

Lemma parse_text_requests_witness :
  [parse_params ["A"; "A"; "Talk:B"]]
  = [] ++ (parse_params <$>
             iterate (split_param_list
                        (re_findall linkP "[[A]] [[A]] [[Talk:B]]"))).
Proof.
  apply (parse_text_requests (wiki_site wiki_talk) "[[A]] [[A]] [[Talk:B]]" []
           [("A", 1)] [parse_params ["A"; "A"; "Talk:B"]]).
  vm_compute. reflexivity.
Defined.

Lemma parse_text_no_link_witness :
  parse_text (wiki_site wiki_abcd) "see [B] and ]]C[" [] = (Ok [], []).
Proof.
  apply (parse_text_no_link (wiki_site wiki_abcd) "see [B] and ]]C[" []).
  vm_compute. reflexivity.
Defined.

Lemma check_redirects_requests_witness :
  [redirects_params ["A"; "Talk:B"]]
  = [] ++ (redirects_params <$> iterate (split_param_list ["A"; "Talk:B"])).
Proof.
  apply (proj1 (check_redirects_requests (wiki_site wiki_talk) ["A"; "Talk:B"] [])
           [] [("A", 1)] [redirects_params ["A"; "Talk:B"]]).
  vm_compute. reflexivity.
Defined.

Lemma linkP_candidates_witness :
  "Rome" ≠ "" ∧ str_forall title_char "Rome" = true.
Proof.
  apply (linkP_candidates "see [[Rome|the city]] and [[New York]]" "Rome").
  apply list_elem_of_In. vm_compute. left. reflexivity.
Defined.

Lemma check_redirects_keys_witness :
  NoDup (dict_keys [("A", 1)])
  ∧ Forall (λ link, no_space link = true) (dict_keys [("A", 1)]).
Proof.
  apply (check_redirects_keys (wiki_site wiki_talk) ["A"; "Talk:B"] []
           [] [("A", 1)] [redirects_params ["A"; "Talk:B"]]).
  vm_compute. reflexivity.
Defined.

Lemma get_outlinks_from_api_result_witness :
  (1 = -1 ∧ ["B"; "C"] = [])
  ∨ (1 ≤ 1 ∧ Forall (λ target, no_space target = true) ["B"; "C"]).
Proof.
  apply (get_outlinks_from_api_result (wiki_site wiki_abcd) "A" [] 1 ["B"; "C"]
           [content_params "A"; parse_params ["B"; "C"]]).
  vm_compute. reflexivity.
Defined.

Lemma get_outlinks_from_api_not_found_witness :
  get_outlinks_from_api (wiki_site wiki_abcd) "Z" []
  = (Ok (-1, []), [] ++ [content_params "Z"]).
Proof.
  apply (get_outlinks_from_api_not_found (wiki_site wiki_abcd) "Z" []
           (Query None (Some [(-1, Page (Some 0) (Some "Z") None)]))
           [(-1, Page (Some 0) (Some "Z") None)] (-1)).
  - intros [?|?]; discriminate.
  - vm_compute. reflexivity.
  - reflexivity.
  - reflexivity.
  - lia.
Defined.

Lemma get_outlinks_hit_witness :
  get_outlinks site_down "A" (notebook_env files_A_B)
  = (Ok (false, cached (files (notebook_env files_A_B)) "A"),
     notebook_env files_A_B).
Proof.
  apply (get_outlinks_hit site_down "A" (notebook_env files_A_B)).
  vm_compute. discriminate.
Defined.

Lemma get_outlinks_shared_file_witness :
  get_outlinks site_down "AC.DC" (notebook_env files_slash)
  = (Ok (false, cached (files (notebook_env files_slash)) "AC/DC"),
     notebook_env files_slash).
Proof.
  apply (get_outlinks_shared_file site_down "AC/DC" "AC.DC"
           (notebook_env files_slash)).
  - vm_compute. reflexivity.
  - vm_compute. discriminate.
Defined.

Lemma get_outlinks_frame_witness :
  files (get_outlinks (wiki_site wiki_abcd) "A" (notebook_env ∅)).2
  = files (notebook_env ∅)
  ∧ net_file (get_outlinks (wiki_site wiki_abcd) "A" (notebook_env ∅)).2
    = net_file (notebook_env ∅)
  ∧ first_step (get_outlinks (wiki_site wiki_abcd) "A" (notebook_env ∅)).2
    = first_step (notebook_env ∅)
  ∧ ∃ more,
      requests (get_outlinks (wiki_site wiki_abcd) "A" (notebook_env ∅)).2
      = requests (notebook_env ∅) ++ more.
Proof.
  apply (get_outlinks_frame (wiki_site wiki_abcd) "A" (notebook_env ∅)
           (Ok (true, ["B"; "C"]))).
  vm_compute. reflexivity.
Defined.

Lemma get_outlinks_new_outlinks_witness :
  NoDup ["B"; "C"] ∧ Forall (λ target, no_space target = true) ["B"; "C"].
Proof.
  apply (get_outlinks_new_outlinks (wiki_site wiki_abcd) "A" (notebook_env ∅)
           ["B"; "C"]
           (get_outlinks (wiki_site wiki_abcd) "A" (notebook_env ∅)).2).
  vm_compute. reflexivity.
Defined.

Lemma get_outlinks_failure_witness :
  get_outlinks site_down "A" (notebook_env ∅)
  = (Raise RequestError,
     Env (files (notebook_env ∅)) (requests (notebook_env ∅) ++ [content_params "A"])
       (net_file (notebook_env ∅)) (first_step (notebook_env ∅))).
Proof.
  apply (get_outlinks_failure site_down "A" (notebook_env ∅)).
  - reflexivity.
  - vm_compute. reflexivity.
  - intros [?|?]; discriminate.
  - reflexivity.
Defined.

Lemma level0_stream_witness :
  length [["B"; "C"]] = length (remove_dups (dict_keys (load_seed "A")))
  ∧ net_file level0_abcd.2
    = net_file (notebook_env ∅)
      ++ concat (zip_with level0_edges (remove_dups (dict_keys (load_seed "A")))
                   [["B"; "C"]]).
Proof.
  apply (level0_stream (wiki_site wiki_abcd) remove_dups (load_seed "A")
           (notebook_env ∅) [["B"; "C"]] level0_abcd.2).
  vm_compute. reflexivity.
Defined.

Lemma frontier_has_records_witness :
  is_Some (dict_get (first_step level0_abcd.2) "C").
Proof.
  apply (frontier_has_records (wiki_site wiki_abcd) remove_dups
           (λ l, Permutation_refl (remove_dups l)) (load_seed "A")
           (notebook_env ∅) [["B"; "C"]] level0_abcd.2).
  - vm_compute. reflexivity.
  - apply list_elem_of_In. vm_compute. right. left. reflexivity.
Defined.

Lemma edge_sources_witness :
  Forall (λ e, e.1 ∈ dict_keys (load_seed "A")) (net_file level0_abcd.2)
  ∧ ∃ edges1,
      net_file run_abcd.2 = net_file level0_abcd.2 ++ edges1
      ∧ Forall (λ e, e.1 ∈ frontier remove_dups (load_seed "A") [["B"; "C"]]
                     ∧ e.1 ∉ dict_keys (load_seed "A")) edges1.
Proof.
  apply (edge_sources (wiki_site wiki_abcd) remove_dups
           (λ l, Permutation_refl (remove_dups l)) "A" ∅ [["B"; "C"]]
           level0_abcd.2 (first_step run_abcd.2) run_abcd.2).
  - vm_compute. reflexivity.
  - vm_compute. reflexivity.
Defined.

Lemma table_rows_are_endpoints_witness :
  "C" ∈ dict_keys (first_step run_abcd.2)
  ↔ ∃ e, e ∈ net_file run_abcd.2 ∧ (e.1 = "C" ∨ e.2 = "C").
Proof.
  apply (table_rows_are_endpoints (wiki_site wiki_abcd) remove_dups "A" ∅
           (first_step run_abcd.2) run_abcd.2).
  vm_compute. reflexivity.
Defined.

Lemma table_seed_flag_witness :
  seed (Degree false 1 1 2 1 2) = true ↔ "B" ∈ dict_keys (load_seed "A").
Proof.
  apply (table_seed_flag (wiki_site wiki_abcd) remove_dups
           (λ l, Permutation_refl (remove_dups l)) "A" ∅
           (first_step run_abcd.2) run_abcd.2).
  - vm_compute. reflexivity.
  - apply list_elem_of_In. vm_compute. right. left. reflexivity.
Defined.

Lemma table_seed_links_witness :
  links_from_seed (Degree false 1 1 2 1 2)
  = count_edges (λ e, e.2 = "B" ∧ e.1 ∈ dict_keys (load_seed "A"))
      (net_file run_abcd.2)
  ∧ links_to_seed (Degree false 1 1 2 1 2)
    = count_edges (λ e, e.1 = "B" ∧ e.2 ∈ dict_keys (load_seed "A"))
        (net_file run_abcd.2).
Proof.
  apply (table_seed_links (wiki_site wiki_abcd) remove_dups
           (λ l, Permutation_refl (remove_dups l)) "A" ∅
           (first_step run_abcd.2) run_abcd.2).
  - vm_compute. reflexivity.
  - apply list_elem_of_In. vm_compute. right. left. reflexivity.
Defined.

Lemma level1_store_then_load_witness :
  get_outlinks site_down "B"
    (notebook_env
       (files (level1_title (wiki_site wiki_abcd) (load_seed "A") ["B"; "C"] "B"
                 level0_abcd.2).2))
  = (Ok (false, ["A"; "D"]),
     notebook_env
       (files (level1_title (wiki_site wiki_abcd) (load_seed "A") ["B"; "C"] "B"
                 level0_abcd.2).2)).
Proof.
  apply (level1_store_then_load (wiki_site wiki_abcd) (load_seed "A") ["B"; "C"]
           "B" level0_abcd.2 ["A"; "D"]
           (get_outlinks (wiki_site wiki_abcd) "B" level0_abcd.2).2 tt
           (level1_title (wiki_site wiki_abcd) (load_seed "A") ["B"; "C"] "B"
              level0_abcd.2).2).
  - vm_compute. reflexivity.
  - vm_compute. reflexivity.
  - repeat constructor.
  - discriminate.
  - vm_compute. reflexivity.
Defined.

Lemma level0_store_then_load_witness :
  get_outlinks site_down "A" (notebook_env (files level0_abcd.2))
  = (Ok (false, ["B"; "C"]), notebook_env (files level0_abcd.2)).
Proof.
  apply (level0_store_then_load (wiki_site wiki_abcd) (load_seed "A") [] "A"
           (notebook_env ∅) ["B"; "C"]
           (get_outlinks (wiki_site wiki_abcd) "A" (notebook_env ∅)).2
           [["B"; "C"]]
           (level0_seed (wiki_site wiki_abcd) (load_seed "A") [] "A"
              (notebook_env ∅)).2).
  - vm_compute. reflexivity.
  - vm_compute. reflexivity.
  - repeat constructor.
  - discriminate.
  - intros Hin. apply list_elem_of_In in Hin. vm_compute in Hin.
    destruct Hin as [?|[?|[]]]; discriminate.
  - vm_compute. reflexivity.
Defined.

Lemma cached_run_is_offline_witness :
  files (extract_network site_down remove_dups "A" (Env files_A_B [] [] [])).2
  = files_A_B
  ∧ requests (extract_network site_down remove_dups "A" (Env files_A_B [] [] [])).2
    = [].
Proof.
  apply (cached_run_is_offline site_down remove_dups files_A_B []
           (λ l, Permutation_refl (remove_dups l)) "A"
           (extract_network site_down remove_dups "A" (Env files_A_B [] [] [])).1).
  - intros seed Hin. apply list_elem_of_In in Hin. vm_compute in Hin.
    destruct Hin as [<-|[]]. vm_compute. discriminate.
  - intros seed title Hin. apply list_elem_of_In in Hin. vm_compute in Hin.
    destruct Hin as [<-|[]]. intros Ht _.
    apply list_elem_of_In in Ht. vm_compute in Ht.
    destruct Ht as [<-|[]]. vm_compute. discriminate.
  - apply surjective_pairing.
Defined.
